(** * tozma: search for shoe-material suppliers in Bucharest

    A shallow embedding of [script.py]: the fetcher
    ([fetch_osm_suppliers]), the classifier/normaliser
    ([filter_and_process_data]) and the two sinks ([save_to_csv],
    [display_results]), followed by the properties of the written
    specification that were checked against them.

    Modelling conventions.
    - A Python [str] is a list of Unicode code points ([list N]); the
      literals of the script are written [lit "..."], which decodes the
      UTF-8 bytes of the Rocq literal.
    - The Overpass payload is typed as the Overpass API produces it: an
      element is a JSON object whose ['type'] is a string, whose ['id'] is
      an integer, whose ['tags'] is an object from strings to strings,
      whose ['lat'] / ['lon'] are floating-point numbers and whose
      ['center'] is an object with ['lat'] / ['lon'].  Every key may be
      absent: a key is an [option] field, [None] when the key is missing
      ([.get] of a key bound to JSON [null] also gives [None]).
    - A subscript [d[k]] on a missing key raises [KeyError]; raising is an
      explicit [result].
    - [str.lower] and [repr] of a float are CPython built-ins that are not
      part of the script: they are parameters of the development. *)

From Stdlib Require Import ZArith NArith List Strings.String Strings.Ascii Lia.
From Stdlib Require Import PrimFloat DecimalString DecimalZ.
From stdpp Require Import base option list gmap sets.

Set Warnings "-inexact-float".
Local Open Scope N_scope.

(** ** Python strings *)

(** A [str]: the sequence of its code points. *)
Abbreviation str := (list N).

(** Decoding of well-formed UTF-8 (1 to 4 byte sequences). *)
Fixpoint utf8_decode (bs : list N) : str :=
  match bs with
  | [] => []
  | b0 :: rest =>
      if b0 <? 128 then b0 :: utf8_decode rest
      else if b0 <? 224 then
        match rest with
        | b1 :: rest1 => ((b0 - 192) * 64 + (b1 - 128)) :: utf8_decode rest1
        | _ => []
        end
      else if b0 <? 240 then
        match rest with
        | b1 :: b2 :: rest2 =>
            ((b0 - 224) * 4096 + (b1 - 128) * 64 + (b2 - 128))
              :: utf8_decode rest2
        | _ => []
        end
      else
        match rest with
        | b1 :: b2 :: b3 :: rest3 =>
            ((b0 - 240) * 262144 + (b1 - 128) * 4096 + (b2 - 128) * 64
             + (b3 - 128)) :: utf8_decode rest3
        | _ => []
        end
  end.

(** A string literal of the script. *)
Definition lit (s : string) : str :=
  utf8_decode (map N_of_ascii (list_ascii_of_string s)).

Arguments lit : simpl never.

(** [str(n)] for an [int]: the decimal numeral, with a leading minus sign
    for negative numbers. *)
Definition int_str (z : Z) : str :=
  map N_of_ascii (list_ascii_of_string (NilZero.string_of_int (Z.to_int z))).

(** [s.startswith(p)]. *)
Fixpoint startswith (s p : str) {struct p} : bool :=
  match p, s with
  | [], _ => true
  | _ :: _, [] => false
  | c :: p', d :: s' => (c =? d) && startswith s' p'
  end.

(** [sub in s] on strings: [sub] occurs in [s] as a contiguous run. *)
Fixpoint contains (sub s : str) : bool :=
  startswith s sub ||
  match s with
  | [] => false
  | _ :: s' => contains sub s'
  end.

(** [c.isspace()]: the code points that [str.strip()] removes. *)
Definition isspace (c : N) : bool :=
  ((9 <=? c) && (c <=? 13)) || ((28 <=? c) && (c <=? 32))
  || (c =? 133) || (c =? 160) || (c =? 5760)
  || ((8192 <=? c) && (c <=? 8202))
  || (c =? 8232) || (c =? 8233) || (c =? 8239) || (c =? 8287)
  || (c =? 12288).

Fixpoint lstrip (s : str) : str :=
  match s with
  | [] => []
  | c :: s' => if isspace c then lstrip s' else s
  end.

Definition rstrip (s : str) : str := rev (lstrip (rev s)).

(** [s.strip()]. *)
Definition strip (s : str) : str := rstrip (lstrip s).

(** ** Exceptions *)

Inductive exn :=
| KeyError (key : str).

Inductive result (A : Type) :=
| Ok (a : A)
| Raise (e : exn).
Arguments Ok {A} a.
Arguments Raise {A} e.

#[global] Instance result_ret : MRet result := @Ok.
#[global] Instance result_bind : MBind result :=
  fun A B f m => match m with Ok a => f a | Raise e => Raise e end.

(** [d[key]] on an object whose key [key] holds [field] when present. *)
Definition getitem {A : Type} (key : str) (field : option A) : result A :=
  match field with
  | Some v => Ok v
  | None => Raise (KeyError key)
  end.

(** ** The data model *)

(** The ['center'] object of an element ([out center]). *)
Module Center.
Record t := mk { lat : option float; lon : option float }.
End Center.

(** An element of the Overpass result set. *)
Module Element.
Record t := mk {
  type : option str;
  id : option Z;
  tags : option (gmap str str);
  lat : option float;
  lon : option float;
  center : option Center.t
}.
End Element.

(** The decoded JSON payload: only its ['elements'] key is read. *)
Record payload := { elements : option (list Element.t) }.

(** The dictionary built for a relevant element. *)
Module Supplier.
Record t := mk {
  id : Z;
  type : str;
  name : str;
  address : str;
  city : str;
  postcode : str;
  shop : str;
  craft : str;
  description : str;
  phone : str;
  website : str;
  latitude : option float;
  longitude : option float
}.
End Supplier.

(** [d.get(key, default)] on a tag dictionary. *)
Definition get (d : gmap str str) (key : str) (dflt : str) : str :=
  default dflt (d !! key).

(** ** The classifier / normaliser *)

Definition shoe_material_keywords : list str :=
  [ lit "cizmărie"; lit "cizmar"; lit "pantof"; lit "shoe"; lit "footwear";
    lit "piele"; lit "leather"; lit "material"; lit "skin"; lit "textil";
    lit "depozit"; lit "warehouse"; lit "wholesale"; lit "en-gros";
    lit "angro"; lit "nelucrată"; lit "raw"; lit "brut"; lit "provizie";
    lit "supply" ].

(** The filtering logic of the loop body (lines 74-86), on the lowered
    name, shop type and craft type. *)
Definition is_relevant (name shop_type craft_type : str) : bool :=
  let is_relevant := false in
  (* 1. Check by business type *)
  let is_relevant :=
    if bool_decide
         (shop_type ∈ [lit "wholesale"; lit "trade"; lit "industrial"])
    then true
    else if bool_decide (craft_type = lit "shoemaker") then true
    else is_relevant in
  (* 2. Check by name keywords *)
  let name_check :=
    existsb (fun keyword => contains keyword name) shoe_material_keywords in
  if name_check then true else is_relevant.

(** The key under which an element is remembered in [seen_ids]:
    [f"{element['type']}_{element['id']}"]. *)
Definition element_id (type : str) (id : Z) : str :=
  type ++ lit "_" ++ int_str id.

Arguments element_id : simpl never.

(** Lines 90-95: the coordinates of a relevant element. *)
Definition coordinates (type : str) (element : Element.t)
  : option float * option float :=
  if bool_decide (type = lit "node") then
    (Element.lat element, Element.lon element)
  else
    match bool_decide (type = lit "way"), Element.center element with
    | true, Some center => (Center.lat center, Center.lon center)
    | _, _ => (None, None)
    end.

Section Classifier.

(** [str.lower]. *)
Variable lower : str -> str.

(** One iteration of the [for element in osm_data['elements']] loop, on
    the two variables the loop updates.  [element['type']] and
    [element['id']] are read once here; the script reads them again at
    lines 92-99, from the same unchanged element. *)
Definition loop_body (element : Element.t)
    (suppliers : list Supplier.t) (seen_ids : gset str)
  : result (list Supplier.t * gset str) :=
  type ← getitem (lit "type") (Element.type element);
  id ← getitem (lit "id") (Element.id element);
  if bool_decide (element_id type id ∈ seen_ids) then
    Ok (suppliers, seen_ids)
  else
    let seen_ids := {[element_id type id]} ∪ seen_ids in
    let tags := default ∅ (Element.tags element) in
    let name := lower (get tags (lit "name") []) in
    let shop_type := lower (get tags (lit "shop") []) in
    let craft_type := lower (get tags (lit "craft") []) in
    if is_relevant name shop_type craft_type then
      let '(lat, lon) := coordinates type element in
      let supplier :=
        {| Supplier.id := id;
           Supplier.type := type;
           Supplier.name := get tags (lit "name") (lit "N/A");
           Supplier.address :=
             strip (get tags (lit "addr:street") [] ++ lit " "
                    ++ get tags (lit "addr:housenumber") []);
           Supplier.city := get tags (lit "addr:city") (lit "București");
           Supplier.postcode := get tags (lit "addr:postcode") [];
           Supplier.shop := get tags (lit "shop") [];
           Supplier.craft := get tags (lit "craft") [];
           Supplier.description := get tags (lit "description") [];
           Supplier.phone := get tags (lit "phone") [];
           Supplier.website := get tags (lit "website") [];
           Supplier.latitude := lat;
           Supplier.longitude := lon |} in
      Ok (suppliers ++ [supplier], seen_ids)
    else
      Ok (suppliers, seen_ids).

(** The loop itself: an exception raised by an iteration ends it. *)
Fixpoint for_elements (els : list Element.t)
    (suppliers : list Supplier.t) (seen_ids : gset str)
  : result (list Supplier.t) :=
  match els with
  | [] => Ok suppliers
  | element :: rest =>
      '(suppliers, seen_ids) ← loop_body element suppliers seen_ids;
      for_elements rest suppliers seen_ids
  end.

(** [osm_data] is [None] for Python's [None].  An empty dictionary is
    falsy and has no ['elements'] key: both tests of line 49 are the
    [None] case of [elements]. *)
Definition filter_and_process_data (osm_data : option payload)
  : result (list Supplier.t) :=
  match osm_data with
  | None => Ok []
  | Some d =>
      match elements d with
      | None => Ok []
      | Some els => for_elements els [] ∅
      end
  end.

End Classifier.

(** A concrete lowering function for the examples: [str.lower] on strings
    made of ASCII and Romanian letters. *)
Definition lower_char (c : N) : N :=
  if (65 <=? c) && (c <=? 90) then c + 32
  else if (c =? 194) || (c =? 206) then c + 32
  else if (c =? 258) || (c =? 350) || (c =? 354) || (c =? 536) || (c =? 538)
  then c + 1
  else c.

Definition lower_ro (s : str) : str := map lower_char s.

(** ** The console and the file system *)

(** What the process has printed (one entry per [print] call) and the
    text files it has written. *)
Record world := { console : list str; files : gmap str str }.

Definition print (line : str) (w : world) : world :=
  {| console := console w ++ [line]; files := files w |}.

(** [open(filename, 'w', ...)] followed by writing [content] and closing:
    the file is created or truncated. *)
Definition write_file (filename content : str) (w : world) : world :=
  {| console := console w; files := <[filename := content]> (files w) |}.

(** [sep.join(l)]. *)
Fixpoint join (sep : str) (l : list str) : str :=
  match l with
  | [] => []
  | [s] => s
  | s :: rest => s ++ sep ++ join sep rest
  end.

(** [s * n]. *)
Definition repeat_str (s : str) (n : nat) : str := concat (repeat s n).

Arguments repeat_str : simpl never.

(** ** The fetcher *)

(** What [requests.post], [raise_for_status] and [response.json()] do is
    outside the script: either the decoded body, or an exception [e] of
    which [str(e)] is kept. *)
Inductive http_outcome :=
| Responded (body : option payload)
| Failed (e : str).

Definition fetch_osm_suppliers (net : http_outcome) (w : world)
  : option payload * world :=
  let w := print (lit "Querying OpenStreetMap for suppliers in Bucharest...") w in
  match net with
  | Responded body => (body, w)
  | Failed e => (None, print (lit "Error fetching data: " ++ e) w)
  end.

(** ** The tabular writer *)

(** The values held by a supplier dictionary. *)
Inductive value :=
| VNone
| VInt (z : Z)
| VFloat (f : float)
| VStr (s : str).

Definition of_coordinate (c : option float) : value :=
  match c with
  | Some f => VFloat f
  | None => VNone
  end.

(** The supplier dictionary as its items, in insertion order. *)
Definition items (s : Supplier.t) : list (str * value) :=
  [ (lit "id", VInt (Supplier.id s));
    (lit "type", VStr (Supplier.type s));
    (lit "name", VStr (Supplier.name s));
    (lit "address", VStr (Supplier.address s));
    (lit "city", VStr (Supplier.city s));
    (lit "postcode", VStr (Supplier.postcode s));
    (lit "shop", VStr (Supplier.shop s));
    (lit "craft", VStr (Supplier.craft s));
    (lit "description", VStr (Supplier.description s));
    (lit "phone", VStr (Supplier.phone s));
    (lit "website", VStr (Supplier.website s));
    (lit "latitude", of_coordinate (Supplier.latitude s));
    (lit "longitude", of_coordinate (Supplier.longitude s)) ].

(** [rowdict.get(key, restval)] with the default [restval = '']. *)
Fixpoint rowdict_get (rowdict : list (str * value)) (key : str) : value :=
  match rowdict with
  | [] => VStr []
  | (k, v) :: rest => if bool_decide (k = key) then v else rowdict_get rest key
  end.

Definition fieldnames : list str :=
  [ lit "id"; lit "type"; lit "name"; lit "address"; lit "city";
    lit "postcode"; lit "shop"; lit "craft"; lit "description"; lit "phone";
    lit "website"; lit "latitude"; lit "longitude" ].

(** [DictWriter._dict_to_list]: the values of a row in [fieldnames] order.
    The supplier dictionaries have exactly these keys, so the writer's
    check for extra keys never fires. *)
Definition dict_to_list (rowdict : list (str * value)) : list value :=
  map (rowdict_get rowdict) fieldnames.

(** The default ([excel]) dialect: the delimiter is a comma, the quote
    character a double quote, the line terminator CR LF; quoting is
    minimal and a quote inside a field is doubled. *)
Definition delimiter : N := 44.
Definition quotechar : N := 34.
Definition lineterminator : str := [13; 10].

Definition special (c : N) : bool :=
  (c =? delimiter) || (c =? quotechar) || bool_decide (c ∈ lineterminator).

Definition quote_field (field : str) : str :=
  [quotechar]
  ++ flat_map (fun c => if c =? quotechar then [c; c] else [c]) field
  ++ [quotechar].

Section Sink.

(** [repr] of a float. *)
Variable float_repr : float -> str.

(** The text of one cell: [None] is written empty, a string as it is,
    anything else through [str]. *)
Definition field_text (v : value) : str :=
  match v with
  | VNone => []
  | VStr s => s
  | VInt z => int_str z
  | VFloat f => float_repr f
  end.

Definition csv_field (v : value) : str :=
  let field := field_text v in
  if existsb special field then quote_field field else field.

(** [writer.writerow(row)]: the line appended to the file.  A row made of
    one empty field is written quoted. *)
Definition writerow (row : list value) : str :=
  if bool_decide (map field_text row = [ [] ]) then
    [quotechar; quotechar] ++ lineterminator
  else join [delimiter] (map csv_field row) ++ lineterminator.

(** [filename] is [None] when the caller leaves the argument out. *)
Definition save_to_csv (suppliers : list Supplier.t) (filename : option str)
    (w : world) : world :=
  let filename := default (lit "bucharest_shoe_suppliers.csv") filename in
  match suppliers with
  | [] => print (lit "No data to save.") w
  | _ :: _ =>
      let header := writerow (map VStr fieldnames) in
      let rows :=
        map (fun supplier => writerow (dict_to_list (items supplier)))
            suppliers in
      let w := write_file filename (header ++ concat rows) w in
      print (lit "✓ Data for " ++ int_str (Z.of_nat (length suppliers))
             ++ lit " locations saved to '" ++ filename ++ lit "'.") w
  end.

End Sink.

(** ** The console summary *)

(** The block printed for the [i]-th supplier. *)
Definition display_supplier (i : Z) (supplier : Supplier.t) (w : world)
  : world :=
  let w := print (int_str i ++ lit ". " ++ Supplier.name supplier) w in
  let w :=
    match Supplier.address supplier with
    | [] => w
    | _ => print (lit "   📍 " ++ Supplier.address supplier ++ lit ", "
                  ++ Supplier.city supplier) w
    end in
  let w :=
    match Supplier.shop supplier with
    | [] => w
    | _ => print (lit "   🏪 Shop type: " ++ Supplier.shop supplier) w
    end in
  let w :=
    match Supplier.craft supplier with
    | [] => w
    | _ => print (lit "   🛠 Craft: " ++ Supplier.craft supplier) w
    end in
  let w :=
    match Supplier.phone supplier with
    | [] => w
    | _ => print (lit "   📞 " ++ Supplier.phone supplier) w
    end in
  print [] w.

(** [for i, supplier in enumerate(suppliers, i)]. *)
Fixpoint display_from (i : Z) (suppliers : list Supplier.t) (w : world)
  : world :=
  match suppliers with
  | [] => w
  | supplier :: rest =>
      display_from (i + 1) rest (display_supplier i supplier w)
  end.

Definition display_results (suppliers : list Supplier.t) (w : world)
  : world :=
  match suppliers with
  | [] =>
      let w := print ([10] ++ lit "No potential suppliers found with the current query.") w in
      print (lit "Try broadening the search or checking other sources.") w
  | _ :: _ =>
      let w := print ([10] ++ lit "Found "
                      ++ int_str (Z.of_nat (length suppliers))
                      ++ lit " potential suppliers/warehouses:" ++ [10]) w in
      let w := print (repeat_str (lit "=") 60) w in
      display_from 1 suppliers w
  end.

(** ** The program *)

Section Main.

Variable lower : str -> str.
Variable float_repr : float -> str.

(** [main()], given what the network call does.  The result is the
    uncaught exception, if any, with what was printed and written until
    then. *)
Definition main (net : http_outcome) (w : world) : world * result unit :=
  let w := print (repeat_str (lit "=") 60) w in
  let w := print (lit "Searching for shoe material suppliers in Bucharest") w in
  let w := print (lit "Source: OpenStreetMap (OSM) Database") w in
  let w := print (repeat_str (lit "=") 60) w in
  let '(raw_data, w) := fetch_osm_suppliers net w in
  match filter_and_process_data lower raw_data with
  | Raise e => (w, Raise e)
  | Ok suppliers_list =>
      let w := display_results suppliers_list w in
      match suppliers_list with
      | [] => (w, Ok tt)
      | _ :: _ =>
          let w := save_to_csv float_repr suppliers_list None w in
          let w := print ([10] ++ lit "💡 Tips for better results:") w in
          let w := print (lit "• Visit the locations found; suppliers might not be fully listed online.") w in
          let w := print (lit "• Search Romanian B2B platforms (e.g., Romania-Export.ro, Bizoo.ro).") w in
          let w := print (lit "• Contact professional shoemaker associations in Romania.") w in
          (w, Ok tt)
      end
  end.

End Main.

(** ** The specification's side *)

(** [sub] occurs in [s] as a substring. *)
Definition substring (sub s : str) : Prop :=
  ∃ before after, s = before ++ sub ++ after.

(** The keyword list as the specification prints it. *)
Definition spec_keywords : list str :=
  [ lit "cizmărie"; lit "cizmar"; lit "pantof"; lit "shoe"; lit "footwear";
    lit "piele"; lit "leather"; lit "material"; lit "skin"; lit "textil";
    lit "depozit"; lit "warehouse"; lit "wholesale"; lit "en-gros";
    lit "angro"; lit "nelucrată"; lit "raw"; lit "brut"; lit "provizie";
    lit "supply" ].

(** The relevance rule of the specification (section 4.2, step 4), on the
    lowered name, shop category and craft category. *)
Definition spec_relevant (name shop_type craft_type : str) : Prop :=
  (shop_type = lit "wholesale" ∨ shop_type = lit "trade"
   ∨ shop_type = lit "industrial")
  ∨ craft_type = lit "shoemaker"
  ∨ ∃ keyword, keyword ∈ spec_keywords ∧ substring keyword name.

(** The tag dictionary the classifier works on: [element.get('tags', {})]. *)
Definition tags_of (element : Element.t) : gmap str str :=
  default ∅ (Element.tags element).

(** Whether the classifier's rule holds of an element. *)
Definition relevant (lower : str -> str) (element : Element.t) : bool :=
  is_relevant (lower (get (tags_of element) (lit "name") []))
              (lower (get (tags_of element) (lit "shop") []))
              (lower (get (tags_of element) (lit "craft") [])).

(** The NormalizedRecord of an element, field by field as section 3 of the
    specification describes it. *)
Definition normalized (type : str) (id : Z) (element : Element.t)
  : Supplier.t :=
  let tags := tags_of element in
  {| Supplier.id := id;
     Supplier.type := type;
     Supplier.name := default (lit "N/A") (tags !! lit "name");
     Supplier.address :=
       strip (default [] (tags !! lit "addr:street") ++ lit " "
              ++ default [] (tags !! lit "addr:housenumber"));
     Supplier.city := default (lit "București") (tags !! lit "addr:city");
     Supplier.postcode := default [] (tags !! lit "addr:postcode");
     Supplier.shop := default [] (tags !! lit "shop");
     Supplier.craft := default [] (tags !! lit "craft");
     Supplier.description := default [] (tags !! lit "description");
     Supplier.phone := default [] (tags !! lit "phone");
     Supplier.website := default [] (tags !! lit "website");
     Supplier.latitude := (coordinates type element).1;
     Supplier.longitude := (coordinates type element).2 |}.

(** The identity of a record. *)
Definition identity (r : Supplier.t) : str * Z :=
  (Supplier.type r, Supplier.id r).

(** The key under which a record's element was remembered. *)
Definition key_of (r : Supplier.t) : str :=
  element_id (Supplier.type r) (Supplier.id r).

(** What one iteration appends to [suppliers], for an element that has a
    type and an id. *)
Definition emitted (lower : str -> str) (element : Element.t)
    (type : str) (id : Z) (seen_ids : gset str) : list Supplier.t :=
  if bool_decide (element_id type id ∈ seen_ids) then []
  else if relevant lower element then [normalized type id element]
  else [].

(** The loop invariant: the records have pairwise different keys, all of
    them in [seen_ids]. *)
Definition recorded (suppliers : list Supplier.t) (seen_ids : gset str)
  : Prop :=
  NoDup (key_of <$> suppliers) ∧ ∀ r, r ∈ suppliers → key_of r ∈ seen_ids.

(** An element on which the subscripts of line 64 succeed. *)
Definition identified (element : Element.t) : Prop :=
  is_Some (Element.type element) ∧ is_Some (Element.id element).

(** The characters of a decimal numeral: digits and the minus sign. *)
Definition numeral_char (c : N) : Prop := c = 45 ∨ (48 <= c ∧ c <= 57).

(** The loop with its final [seen_ids] kept. *)
Fixpoint run_elements (lower : str -> str) (els : list Element.t)
    (suppliers : list Supplier.t) (seen_ids : gset str)
  : result (list Supplier.t * gset str) :=
  match els with
  | [] => Ok (suppliers, seen_ids)
  | element :: rest =>
      '(suppliers, seen_ids) ← loop_body lower element suppliers seen_ids;
      run_elements lower rest suppliers seen_ids
  end.

(** The two end-to-end examples of the specification. *)
Definition node42 : Element.t :=
  {| Element.type := Some (lit "node"); Element.id := Some 42%Z;
     Element.tags := Some (<[lit "name" := lit "Depozit Piele SRL"]>
                             (<[lit "shop" := lit "wholesale"]> ∅));
     Element.lat := Some 44.43%float; Element.lon := Some 26.10%float;
     Element.center := None |}.

Definition record42 : Supplier.t :=
  {| Supplier.id := 42; Supplier.type := lit "node";
     Supplier.name := lit "Depozit Piele SRL";
     Supplier.address := []; Supplier.city := lit "București";
     Supplier.postcode := []; Supplier.shop := lit "wholesale";
     Supplier.craft := []; Supplier.description := [];
     Supplier.phone := []; Supplier.website := [];
     Supplier.latitude := Some 44.43%float;
     Supplier.longitude := Some 26.10%float |}.

Definition way7 : Element.t :=
  {| Element.type := Some (lit "way"); Element.id := Some 7%Z;
     Element.tags := Some (<[lit "name" := lit "Brutăria Centrală"]> ∅);
     Element.lat := None; Element.lon := None;
     Element.center :=
       Some {| Center.lat := Some 44.0%float;
               Center.lon := Some 26.0%float |} |}.

(** A second element with the identity of [node42] and other tags. *)
Definition node42_again : Element.t :=
  {| Element.type := Some (lit "node"); Element.id := Some 42%Z;
     Element.tags := Some (<[lit "name" := lit "Leather Supply"]> ∅);
     Element.lat := None; Element.lon := None; Element.center := None |}.

(** An element that is neither a node nor a way. *)
Definition relation9 : Element.t :=
  {| Element.type := Some (lit "relation"); Element.id := Some 9%Z;
     Element.tags := Some (<[lit "craft" := lit "shoemaker"]> ∅);
     Element.lat := Some 44.5%float; Element.lon := Some 26.5%float;
     Element.center :=
       Some {| Center.lat := Some 44.25%float;
               Center.lon := Some 26.25%float |} |}.

(** An element with nothing but its type and id. *)
Definition bare (type : str) (id : Z) : Element.t :=
  {| Element.type := Some type; Element.id := Some id;
     Element.tags := None; Element.lat := None; Element.lon := None;
     Element.center := None |}.

(** What [main] prints before the fetch. *)
Definition banner : list str :=
  [ repeat_str (lit "=") 60;
    lit "Searching for shoe material suppliers in Bucharest";
    lit "Source: OpenStreetMap (OSM) Database";
    repeat_str (lit "=") 60;
    lit "Querying OpenStreetMap for suppliers in Bucharest..." ].

(** What [display_results] prints for an empty sequence. *)
Definition no_results_notice : list str :=
  [ [10] ++ lit "No potential suppliers found with the current query.";
    lit "Try broadening the search or checking other sources." ].

(** The header line of the specification (section 6), with its line
    terminator. *)
Definition spec_header : str :=
  lit "id,type,name,address,city,postcode,shop,craft,description,phone,website,latitude,longitude"
  ++ [13; 10].

(** The thirteen cells of a record, in the column order of the
    specification. *)
Definition spec_cells (r : Supplier.t) : list value :=
  [ VInt (Supplier.id r); VStr (Supplier.type r); VStr (Supplier.name r);
    VStr (Supplier.address r); VStr (Supplier.city r);
    VStr (Supplier.postcode r); VStr (Supplier.shop r);
    VStr (Supplier.craft r); VStr (Supplier.description r);
    VStr (Supplier.phone r); VStr (Supplier.website r);
    of_coordinate (Supplier.latitude r);
    of_coordinate (Supplier.longitude r) ].

(** The line of a record: its cells, quoted where needed, separated by
    commas and ended by the line terminator. *)
Definition spec_row (float_repr : float -> str) (r : Supplier.t) : str :=
  join [44] (map (csv_field float_repr) (spec_cells r)) ++ [13; 10].

(** ** Further notions used to describe the script *)

(** The key whose subscript fails on an element, if any: line 64 reads
    ['type'] before ['id']. *)
Definition missing_key (element : Element.t) : option str :=
  match Element.type element, Element.id element with
  | None, _ => Some (lit "type")
  | Some _, None => Some (lit "id")
  | Some _, Some _ => None
  end.

(** The (type, id) pair of an element that has both. *)
Definition element_identity (element : Element.t) : option (str * Z) :=
  match Element.type element, Element.id element with
  | Some type, Some id => Some (type, id)
  | _, _ => None
  end.

(** A way without an id. *)
Definition way_without_id : Element.t :=
  {| Element.type := Some (lit "way"); Element.id := None;
     Element.tags := Some (<[lit "shop" := lit "trade"]> ∅);
     Element.lat := None; Element.lon := None; Element.center := None |}.

(** A relevant node with a street and no house number. *)
Definition node5 : Element.t :=
  {| Element.type := Some (lit "node"); Element.id := Some 5%Z;
     Element.tags := Some (<[lit "shop" := lit "trade"]>
                             (<[lit "addr:street" := lit "Strada Lipscani"]> ∅));
     Element.lat := None; Element.lon := None; Element.center := None |}.

(** The file [save_to_csv] writes when the caller names none. *)
Definition default_filename : str := lit "bucharest_shoe_suppliers.csv".

(** What [save_to_csv] prints after writing [n] records to [filename]. *)
Definition saved_notice (n : nat) (filename : str) : str :=
  lit "✓ Data for " ++ int_str (Z.of_nat n)
  ++ lit " locations saved to '" ++ filename ++ lit "'.".

(** What [main] prints after saving. *)
Definition tips : list str :=
  [ [10] ++ lit "💡 Tips for better results:";
    lit "• Visit the locations found; suppliers might not be fully listed online.";
    lit "• Search Romanian B2B platforms (e.g., Romania-Export.ro, Bizoo.ro).";
    lit "• Contact professional shoemaker associations in Romania." ].

(** The first line of the block of the [i]-th supplier. *)
Definition block_header (i : Z) (supplier : Supplier.t) : str :=
  int_str i ++ lit ". " ++ Supplier.name supplier.

(** The lines of the block of the [i]-th supplier. *)
Definition block (i : Z) (supplier : Supplier.t) : list str :=
  [block_header i supplier]
  ++ match Supplier.address supplier with
     | [] => []
     | _ => [lit "   📍 " ++ Supplier.address supplier ++ lit ", "
             ++ Supplier.city supplier]
     end
  ++ match Supplier.shop supplier with
     | [] => []
     | _ => [lit "   🏪 Shop type: " ++ Supplier.shop supplier]
     end
  ++ match Supplier.craft supplier with
     | [] => []
     | _ => [lit "   🛠 Craft: " ++ Supplier.craft supplier]
     end
  ++ match Supplier.phone supplier with
     | [] => []
     | _ => [lit "   📞 " ++ Supplier.phone supplier]
     end
  ++ [ [] ].

(** The blocks of a sequence numbered from [i]. *)
Fixpoint blocks (i : Z) (suppliers : list Supplier.t) : list str :=
  match suppliers with
  | [] => []
  | supplier :: rest => block i supplier ++ blocks (i + 1) rest
  end.

(** The first lines of the blocks of a sequence numbered from [i]. *)
Fixpoint block_headers (i : Z) (suppliers : list Supplier.t) : list str :=
  match suppliers with
  | [] => []
  | supplier :: rest => block_header i supplier :: block_headers (i + 1) rest
  end.

(** What [display_results] adds to the console. *)
Definition summary (suppliers : list Supplier.t) : list str :=
  match suppliers with
  | [] => no_results_notice
  | _ :: _ =>
      [ [10] ++ lit "Found " ++ int_str (Z.of_nat (length suppliers))
        ++ lit " potential suppliers/warehouses:" ++ [10];
        repeat_str (lit "=") 60 ]
      ++ blocks 1 suppliers
  end.

(** The body handed to the classifier, and what the fetcher prints after
    its first line. *)
Definition fetched (net : http_outcome) : option payload :=
  match net with
  | Responded body => body
  | Failed _ => None
  end.

Definition fetch_error_lines (net : http_outcome) : list str :=
  match net with
  | Responded _ => []
  | Failed e => [lit "Error fetching data: " ++ e]
  end.

(** The defaults of section 3 of the specification, read on a record [r]
    made from [element]: what each field holds when the attribute it comes
    from is missing. *)
Definition defaults_for (element : Element.t) (r : Supplier.t) : Prop :=
  let tags := tags_of element in
  (tags !! lit "name" = None → Supplier.name r = lit "N/A")
  ∧ (tags !! lit "addr:street" = None →
     tags !! lit "addr:housenumber" = None → Supplier.address r = [])
  ∧ (tags !! lit "addr:city" = None → Supplier.city r = lit "București")
  ∧ (tags !! lit "addr:postcode" = None → Supplier.postcode r = [])
  ∧ (tags !! lit "shop" = None → Supplier.shop r = [])
  ∧ (tags !! lit "craft" = None → Supplier.craft r = [])
  ∧ (tags !! lit "description" = None → Supplier.description r = [])
  ∧ (tags !! lit "phone" = None → Supplier.phone r = [])
  ∧ (tags !! lit "website" = None → Supplier.website r = [])
  ∧ (Element.type element = Some (lit "node") →
     Element.lat element = None → Supplier.latitude r = None)
  ∧ (Element.type element = Some (lit "node") →
     Element.lon element = None → Supplier.longitude r = None)
  ∧ (Element.type element = Some (lit "way") →
     Element.center element = None →
     Supplier.latitude r = None ∧ Supplier.longitude r = None)
  ∧ (Element.type element = Some (lit "way") →
     ∀ center, Element.center element = Some center →
       (Center.lat center = None → Supplier.latitude r = None)
       ∧ (Center.lon center = None → Supplier.longitude r = None)).

(** A relevant node with a shop tag and nothing else: no name, no
    address, no city, no coordinates. *)
Definition shop_only : Element.t :=
  {| Element.type := Some (lit "node"); Element.id := Some 3%Z;
     Element.tags := Some (<[lit "shop" := lit "wholesale"]> ∅);
     Element.lat := None; Element.lon := None; Element.center := None |}.

(** A relevant way with a craft tag and nothing else: no center. *)
Definition way_without_center : Element.t :=
  {| Element.type := Some (lit "way"); Element.id := Some 4%Z;
     Element.tags := Some (<[lit "craft" := lit "Shoemaker"]> ∅);
     Element.lat := None; Element.lon := None; Element.center := None |}.

(** * Properties *)

(** ** Strings *)

Lemma startswith_spec (s p : str) :
  startswith s p = true ↔ ∃ after, s = p ++ after.
Proof.
  revert s. induction p as [|c p IH]; intros s; simpl.
  - split; eauto.
  - destruct s as [|d s].
    + split; [done | intros [after Hs]; done].
    + rewrite andb_true_iff, N.eqb_eq, IH. split.
      * intros [-> [after ->]]. eauto.
      * intros [after Hs]. injection Hs as -> ->. eauto.
Qed.

Lemma contains_spec (sub s : str) :
  contains sub s = true ↔ substring sub s.
Proof.
  unfold substring. induction s as [|d s IH]; simpl.
  - rewrite orb_false_r, startswith_spec. split.
    + intros [after Hs]. by exists [], after.
    + intros (before & after & Hs). destruct before; [by exists after|done].
  - rewrite orb_true_iff, startswith_spec, IH. split.
    + intros [[after Hs] | (before & after & ->)].
      * by exists [], after.
      * by exists (d :: before), after.
    + intros (before & after & Hs). destruct before as [|x before].
      * left. by exists after.
      * right. injection Hs as -> ->. by exists before, after.
Qed.

Lemma N_of_ascii_inj (a b : ascii) : N_of_ascii a = N_of_ascii b → a = b.
Proof.
  intros H. rewrite <- (ascii_N_embedding a), <- (ascii_N_embedding b).
  by rewrite H.
Qed.

Lemma map_N_of_ascii_inj (l l' : list ascii) :
  map N_of_ascii l = map N_of_ascii l' → l = l'.
Proof.
  revert l'. induction l as [|a l IH]; intros [|b l']; simpl; try done.
  intros [= Hab Hl]. f_equal; [by apply N_of_ascii_inj | by apply IH].
Qed.

Lemma list_ascii_of_string_inj (s t : string) :
  list_ascii_of_string s = list_ascii_of_string t → s = t.
Proof.
  intros H. rewrite <- (string_of_list_ascii_of_string s),
    <- (string_of_list_ascii_of_string t). by rewrite H.
Qed.

Lemma to_int_nonnil (z : Z) :
  Z.to_int z ≠ Decimal.Pos Decimal.Nil ∧ Z.to_int z ≠ Decimal.Neg Decimal.Nil.
Proof.
  destruct z as [|p|p]; simpl; split; try discriminate;
    intros [= H]; by apply (DecimalPos.Unsigned.to_uint_nonnil p).
Qed.

(** [str] is injective on integers. *)
Lemma int_str_inj (z z' : Z) : int_str z = int_str z' → z = z'.
Proof.
  unfold int_str. intros H.
  apply map_N_of_ascii_inj in H.
  apply list_ascii_of_string_inj in H.
  destruct (to_int_nonnil z) as [Hp Hn], (to_int_nonnil z') as [Hp' Hn'].
  pose proof (NilZero.isi _ Hp Hn) as E. rewrite H in E.
  rewrite (NilZero.isi _ Hp' Hn') in E. injection E as E.
  symmetry. by apply DecimalZ.to_int_inj.
Qed.

Lemma string_of_uint_numeral (d : Decimal.uint) :
  Forall numeral_char
    (map N_of_ascii (list_ascii_of_string (NilEmpty.string_of_uint d))).
Proof.
  induction d; simpl; constructor; try done; right; simpl; lia.
Qed.

Lemma int_str_numeral (z : Z) : Forall numeral_char (int_str z).
Proof.
  assert (Hu : ∀ d, Forall numeral_char
    (map N_of_ascii (list_ascii_of_string (NilZero.string_of_uint d)))).
  { intros d. destruct d; try apply string_of_uint_numeral.
    simpl. constructor; [right; simpl; lia | constructor]. }
  unfold int_str. destruct (Z.to_int z) as [d|d]; simpl.
  - apply Hu.
  - constructor; [by left | apply Hu].
Qed.

Lemma int_str_no_underscore (z : Z) : 95 ∉ int_str z.
Proof.
  intros H. pose proof (int_str_numeral z) as F.
  rewrite Forall_forall in F. apply F in H. unfold numeral_char in H. lia.
Qed.

Lemma split_at_last (c : N) (a a' b b' : str) :
  c ∉ b → c ∉ b' → a ++ [c] ++ b = a' ++ [c] ++ b' → a = a' ∧ b = b'.
Proof.
  intros Hb Hb'. revert a'.
  induction a as [|x a IH]; intros [|y a']; simpl; intros E.
  - by injection E as ->.
  - injection E as -> ->. exfalso. apply Hb.
    apply elem_of_app. right. left.
  - injection E as <- <-. exfalso. apply Hb'.
    apply elem_of_app. right. left.
  - injection E as -> E. destruct (IH _ E) as [Ea Eb]. by subst.
Qed.

(** The key kept in [seen_ids] determines the (type, id) pair. *)
Lemma element_id_inj (type type' : str) (id id' : Z) :
  element_id type id = element_id type' id' → type = type' ∧ id = id'.
Proof.
  unfold element_id. change (lit "_") with [95]. intros H.
  apply split_at_last in H; try apply int_str_no_underscore.
  destruct H as [-> H]. split; [done | by apply int_str_inj].
Qed.

(** ** The relevance rule *)

Lemma keywords_as_specified : shoe_material_keywords = spec_keywords.
Proof. reflexivity. Qed.

Lemma is_relevant_spec (name shop_type craft_type : str) :
  is_relevant name shop_type craft_type = true
  ↔ spec_relevant name shop_type craft_type.
Proof.
  unfold is_relevant, spec_relevant. rewrite keywords_as_specified.
  destruct (existsb _ spec_keywords) eqn:E.
  - split; [intros _ | done]. right; right.
    apply existsb_exists in E as (keyword & Hin & Hsub).
    exists keyword. split; [by apply list_elem_of_In | by apply contains_spec].
  - assert (Hno : ¬ ∃ keyword, keyword ∈ spec_keywords ∧ substring keyword name).
    { intros (keyword & Hin & Hsub).
      assert (existsb (λ keyword, contains keyword name) spec_keywords = true)
        as E'; [| congruence].
      apply existsb_exists. exists keyword.
      split; [by apply list_elem_of_In | by apply contains_spec]. }
    case_bool_decide as Hshop.
    + split; [intros _ | done]. left.
      rewrite !elem_of_cons, elem_of_nil in Hshop. tauto.
    + case_bool_decide as Hcraft.
      * split; [intros _; by right; left | done].
      * split; [done |]. intros [H | [H | H]]; try done.
        exfalso. apply Hshop. rewrite !elem_of_cons. tauto.
Qed.

(** ** One iteration of the loop *)

Section LoopFacts.

Variable lower : str -> str.

Implicit Types (element : Element.t) (type : str) (id : Z).
Implicit Types (els : list Element.t).
Implicit Types (suppliers : list Supplier.t) (seen_ids : gset str).

Lemma loop_body_seen element type id suppliers seen_ids :
  Element.type element = Some type → Element.id element = Some id →
  element_id type id ∈ seen_ids →
  loop_body lower element suppliers seen_ids = Ok (suppliers, seen_ids).
Proof.
  intros Ht Hi Hin. unfold loop_body. rewrite Ht, Hi. simpl.
  by rewrite bool_decide_eq_true_2.
Qed.

Lemma loop_body_fresh element type id suppliers seen_ids :
  Element.type element = Some type → Element.id element = Some id →
  element_id type id ∉ seen_ids →
  loop_body lower element suppliers seen_ids =
    Ok (if relevant lower element
        then suppliers ++ [normalized type id element] else suppliers,
        {[element_id type id]} ∪ seen_ids).
Proof.
  intros Ht Hi Hin. unfold loop_body, relevant, normalized, tags_of, get.
  rewrite Ht, Hi. simpl. rewrite bool_decide_eq_false_2 by done.
  destruct (is_relevant _ _ _); [| done].
  by destruct (coordinates type element).
Qed.

Lemma loop_body_missing_type element suppliers seen_ids :
  Element.type element = None →
  loop_body lower element suppliers seen_ids = Raise (KeyError (lit "type")).
Proof. intros Ht. unfold loop_body. by rewrite Ht. Qed.

Lemma loop_body_missing_id element type suppliers seen_ids :
  Element.type element = Some type → Element.id element = None →
  loop_body lower element suppliers seen_ids = Raise (KeyError (lit "id")).
Proof. intros Ht Hi. unfold loop_body. by rewrite Ht, Hi. Qed.

Lemma loop_body_ok element type id suppliers seen_ids :
  Element.type element = Some type → Element.id element = Some id →
  loop_body lower element suppliers seen_ids =
    Ok (suppliers ++ emitted lower element type id seen_ids,
        {[element_id type id]} ∪ seen_ids).
Proof.
  intros Ht Hi. unfold emitted. case_bool_decide as Hin.
  - rewrite (loop_body_seen _ _ _ _ _ Ht Hi Hin), app_nil_r.
    do 2 f_equal. symmetry. apply subseteq_union_1_L. set_solver.
  - rewrite (loop_body_fresh _ _ _ _ _ Ht Hi Hin).
    destruct (relevant lower element); [done | by rewrite app_nil_r].
Qed.

(** ** The whole loop *)

Lemma for_elements_run els suppliers seen_ids :
  for_elements lower els suppliers seen_ids =
    match run_elements lower els suppliers seen_ids with
    | Ok st => Ok st.1
    | Raise e => Raise e
    end.
Proof.
  revert suppliers seen_ids. induction els as [|element els IH];
    intros suppliers seen_ids; simpl; [done |].
  destruct (loop_body lower element suppliers seen_ids) as [[s' seen']|e];
    simpl; [apply IH | done].
Qed.

Lemma run_elements_app els1 els2 suppliers seen_ids :
  run_elements lower (els1 ++ els2) suppliers seen_ids =
    match run_elements lower els1 suppliers seen_ids with
    | Ok st => run_elements lower els2 st.1 st.2
    | Raise e => Raise e
    end.
Proof.
  revert suppliers seen_ids. induction els1 as [|element els1 IH];
    intros suppliers seen_ids; simpl; [done |].
  destruct (loop_body lower element suppliers seen_ids) as [[s' seen']|e];
    simpl; [apply IH | done].
Qed.

Lemma loop_body_inv element suppliers seen_ids suppliers' seen_ids' :
  loop_body lower element suppliers seen_ids = Ok (suppliers', seen_ids') →
  ∃ type id,
    Element.type element = Some type ∧ Element.id element = Some id
    ∧ suppliers' = suppliers ++ emitted lower element type id seen_ids
    ∧ seen_ids' = {[element_id type id]} ∪ seen_ids.
Proof.
  destruct (Element.type element) as [type|] eqn:Ht.
  - destruct (Element.id element) as [id|] eqn:Hi.
    + rewrite (loop_body_ok _ _ _ _ _ Ht Hi). intros [= <- <-].
      by exists type, id.
    + by rewrite (loop_body_missing_id _ _ _ _ Ht Hi).
  - by rewrite (loop_body_missing_type _ _ _ Ht).
Qed.

Lemma run_elements_mono els suppliers seen_ids suppliers' seen_ids' :
  run_elements lower els suppliers seen_ids = Ok (suppliers', seen_ids') →
  seen_ids ⊆ seen_ids'.
Proof.
  revert suppliers seen_ids. induction els as [|element els IH];
    intros suppliers seen_ids; simpl.
  - by intros [= <- <-].
  - destruct (loop_body lower element suppliers seen_ids)
      as [[s1 seen1]|e] eqn:Hb; simpl; [| done].
    intros Hrun. apply IH in Hrun.
    apply loop_body_inv in Hb as (type & id & _ & _ & _ & ->).
    set_solver.
Qed.

Lemma key_of_normalized type id element :
  key_of (normalized type id element) = element_id type id.
Proof. reflexivity. Qed.

Lemma loop_body_recorded element suppliers seen_ids suppliers' seen_ids' :
  recorded suppliers seen_ids →
  loop_body lower element suppliers seen_ids = Ok (suppliers', seen_ids') →
  recorded suppliers' seen_ids'.
Proof.
  intros [Hnd Hin] Hb.
  apply loop_body_inv in Hb as (type & id & _ & _ & -> & ->).
  unfold emitted. case_bool_decide as Hseen.
  { rewrite app_nil_r. split; [done |]. intros r Hr. set_solver. }
  destruct (relevant lower element).
  - split.
    + rewrite fmap_app. apply NoDup_app. split; [done |]. split.
      * intros k Hk [->|[]%elem_of_nil]%elem_of_cons.
        apply list_elem_of_fmap in Hk as (r & Hkey & Hr).
        apply Hseen. rewrite <- (key_of_normalized type id element), Hkey.
        by apply Hin.
      * apply NoDup_singleton.
    + intros r [Hr|Hr]%elem_of_app.
      * apply elem_of_union_r. by apply Hin.
      * apply list_elem_of_singleton in Hr as ->.
        rewrite key_of_normalized. set_solver.
  - rewrite app_nil_r. split; [done |]. intros r Hr. set_solver.
Qed.

Lemma run_elements_recorded els suppliers seen_ids suppliers' seen_ids' :
  recorded suppliers seen_ids →
  run_elements lower els suppliers seen_ids = Ok (suppliers', seen_ids') →
  recorded suppliers' seen_ids'.
Proof.
  revert suppliers seen_ids. induction els as [|element els IH];
    intros suppliers seen_ids Hrec; simpl.
  - by intros [= <- <-].
  - destruct (loop_body lower element suppliers seen_ids)
      as [[s1 seen1]|e] eqn:Hb; simpl; [| done].
    apply IH. by eapply loop_body_recorded.
Qed.

(** The loop ends normally exactly when every element has a type and an
    id. *)
Lemma run_elements_total els suppliers seen_ids :
  Forall identified els ↔
  ∃ st, run_elements lower els suppliers seen_ids = Ok st.
Proof.
  revert suppliers seen_ids. induction els as [|element els IH];
    intros suppliers seen_ids; simpl.
  - split; eauto.
  - rewrite Forall_cons. split.
    + intros [[[type Ht] [id Hi]] Hels].
      rewrite (loop_body_ok _ _ _ _ _ Ht Hi). simpl. by apply IH.
    + intros [st Hst].
      destruct (loop_body lower element suppliers seen_ids)
        as [[s1 seen1]|e] eqn:Hb; simpl in Hst; [| done].
      split; [| apply (IH s1 seen1); eauto].
      apply loop_body_inv in Hb as (type & id & Ht & Hi & _).
      split; eauto.
Qed.

(** A later element with the key of an earlier one changes nothing. *)
Lemma run_elements_skip els1 element els2 element' els3 type id
    suppliers seen_ids :
  Element.type element = Some type → Element.id element = Some id →
  Element.type element' = Some type → Element.id element' = Some id →
  run_elements lower (els1 ++ element :: els2 ++ element' :: els3)
               suppliers seen_ids
  = run_elements lower (els1 ++ element :: els2 ++ els3) suppliers seen_ids.
Proof.
  intros Ht Hi Ht' Hi'. rewrite !(run_elements_app els1).
  destruct (run_elements lower els1 suppliers seen_ids)
    as [[s1 seen1]|e]; [| done].
  simpl. rewrite (loop_body_ok _ _ _ _ _ Ht Hi). simpl.
  rewrite !(run_elements_app els2).
  destruct (run_elements lower els2 _ _) as [[s2 seen2]|e] eqn:H2; [| done].
  simpl. apply run_elements_mono in H2.
  rewrite (loop_body_seen _ _ _ _ _ Ht' Hi'); [done | set_solver].
Qed.

Lemma emitted_fresh element type id seen_ids r :
  r ∈ emitted lower element type id seen_ids →
  (element_id type id ∉ seen_ids) ∧ relevant lower element = true
  ∧ r = normalized type id element.
Proof.
  unfold emitted. case_bool_decide as Hseen.
  { by intros ?%elem_of_nil. }
  destruct (relevant lower element).
  - by intros ->%list_elem_of_singleton.
  - by intros ?%elem_of_nil.
Qed.

(** The records added by the loop have keys that were not in [seen_ids]
    when it started. *)
Lemma run_elements_new els suppliers seen_ids suppliers' seen_ids' :
  run_elements lower els suppliers seen_ids = Ok (suppliers', seen_ids') →
  ∃ new, suppliers' = suppliers ++ new
         ∧ ∀ r, r ∈ new → key_of r ∉ seen_ids.
Proof.
  revert suppliers seen_ids. induction els as [|element els IH];
    intros suppliers seen_ids; simpl.
  - intros [= <- <-]. exists []. split; [by rewrite app_nil_r |].
    by intros r ?%elem_of_nil.
  - destruct (loop_body lower element suppliers seen_ids)
      as [[s1 seen1]|e] eqn:Hb; simpl; [| done].
    intros Hrun. apply IH in Hrun as (new & -> & Hnew).
    apply loop_body_inv in Hb as (type & id & _ & _ & -> & ->).
    exists (emitted lower element type id seen_ids ++ new).
    split; [by rewrite app_assoc |].
    intros r [Hr|Hr]%elem_of_app.
    + apply emitted_fresh in Hr as (Hseen & _ & ->).
      by rewrite key_of_normalized.
    + apply Hnew in Hr. set_solver.
Qed.

(** Every key of [seen_ids] was there at the start or is the key of an
    element of the list. *)
Lemma run_elements_seen els suppliers seen_ids suppliers' seen_ids' k :
  run_elements lower els suppliers seen_ids = Ok (suppliers', seen_ids') →
  k ∈ seen_ids' →
  k ∈ seen_ids
  ∨ ∃ element type id,
      element ∈ els ∧ Element.type element = Some type
      ∧ Element.id element = Some id ∧ k = element_id type id.
Proof.
  revert suppliers seen_ids. induction els as [|element els IH];
    intros suppliers seen_ids; simpl.
  - intros [= <- <-]. by left.
  - destruct (loop_body lower element suppliers seen_ids)
      as [[s1 seen1]|e] eqn:Hb; simpl; [| done].
    intros Hrun Hk. destruct (IH _ _ Hrun Hk) as [Hk1|Hk1].
    + apply loop_body_inv in Hb as (type & id & Ht & Hi & _ & ->).
      apply elem_of_union in Hk1 as [->%elem_of_singleton|Hk1]; [| by left].
      right. exists element, type, id. split; [left | done].
    + right. destruct Hk1 as (e' & type & id & Hin & Hrest).
      exists e', type, id. split; [by right | done].
Qed.

(** The result of the loop around an element that is the first of its
    identity: the records before it, what it adds, the records after it. *)
Lemma run_elements_at_first els1 element els3 type id suppliers seen_ids :
  Element.type element = Some type → Element.id element = Some id →
  (∀ e, e ∈ els1 →
        ¬ (Element.type e = Some type ∧ Element.id e = Some id)) →
  run_elements lower (els1 ++ element :: els3) [] ∅
    = Ok (suppliers, seen_ids) →
  ∃ before after,
    suppliers
      = (before ++ (if relevant lower element
                    then [normalized type id element] else [])) ++ after
    ∧ (∀ r, r ∈ before → key_of r ≠ element_id type id)
    ∧ (∀ r, r ∈ after → key_of r ≠ element_id type id).
Proof.
  intros Ht Hi Hfirst Hrun. rewrite run_elements_app in Hrun.
  destruct (run_elements lower els1 [] ∅) as [[s1 seen1]|e] eqn:H1;
    [| done].
  simpl in Hrun.
  assert (Hrec : recorded s1 seen1).
  { eapply run_elements_recorded; [| exact H1].
    split; [constructor | by intros ? ?%elem_of_nil]. }
  assert (Hfresh : element_id type id ∉ seen1).
  { intros Hk. destruct (run_elements_seen _ _ _ _ _ _ H1 Hk)
      as [Hk0|(e' & type' & id' & Hin & Ht' & Hi' & Heq)].
    - by apply not_elem_of_empty in Hk0.
    - apply element_id_inj in Heq as [-> ->]. by apply (Hfirst e'). }
  rewrite (loop_body_fresh _ _ _ _ _ Ht Hi Hfresh) in Hrun. simpl in Hrun.
  apply run_elements_new in Hrun as (new & -> & Hnew).
  exists s1, new. split; [by destruct (relevant lower element);
                            rewrite ?app_nil_r |].
  split.
  - intros r Hr Hkey. apply Hfresh. rewrite <- Hkey. by apply Hrec.
  - intros r Hr Hkey. apply Hnew in Hr. apply Hr. rewrite Hkey. set_solver.
Qed.

(** A record with the identity of an element that is the first of its
    identity in the list is the record of that element. *)
Lemma run_elements_first els1 element els3 type id suppliers seen_ids r :
  Element.type element = Some type → Element.id element = Some id →
  (∀ e, e ∈ els1 →
        ¬ (Element.type e = Some type ∧ Element.id e = Some id)) →
  run_elements lower (els1 ++ element :: els3) [] ∅
    = Ok (suppliers, seen_ids) →
  r ∈ suppliers → identity r = (type, id) →
  relevant lower element = true ∧ r = normalized type id element.
Proof.
  intros Ht Hi Hfirst Hrun Hr Hid.
  destruct (run_elements_at_first _ _ _ _ _ _ _ Ht Hi Hfirst Hrun)
    as (before & after & -> & Hbefore & Hafter).
  assert (Hkey : key_of r = element_id type id).
  { unfold key_of. by injection Hid as -> ->. }
  apply elem_of_app in Hr as [[Hr|Hr]%elem_of_app|Hr].
  - by apply Hbefore in Hr.
  - destruct (relevant lower element).
    + by apply list_elem_of_singleton in Hr.
    + by apply elem_of_nil in Hr.
  - by apply Hafter in Hr.
Qed.

(** A relevant element that is the first of its identity has its record
    in the result. *)
Lemma run_elements_first_kept els1 element els3 type id suppliers seen_ids :
  Element.type element = Some type → Element.id element = Some id →
  (∀ e, e ∈ els1 →
        ¬ (Element.type e = Some type ∧ Element.id e = Some id)) →
  run_elements lower (els1 ++ element :: els3) [] ∅
    = Ok (suppliers, seen_ids) →
  relevant lower element = true →
  normalized type id element ∈ suppliers.
Proof.
  intros Ht Hi Hfirst Hrun Hrel.
  destruct (run_elements_at_first _ _ _ _ _ _ _ Ht Hi Hfirst Hrun)
    as (before & after & -> & _). rewrite Hrel.
  apply elem_of_app. left. apply elem_of_app. right. left.
Qed.

(** Every record of the result is the record of a relevant element of the
    list. *)
Lemma run_elements_sound els suppliers seen_ids suppliers' seen_ids' r :
  run_elements lower els suppliers seen_ids = Ok (suppliers', seen_ids') →
  r ∈ suppliers' →
  r ∈ suppliers
  ∨ ∃ element type id,
      element ∈ els ∧ Element.type element = Some type
      ∧ Element.id element = Some id ∧ relevant lower element = true
      ∧ r = normalized type id element.
Proof.
  revert suppliers seen_ids. induction els as [|element els IH];
    intros suppliers seen_ids; simpl.
  - intros [= <- <-] Hr. by left.
  - destruct (loop_body lower element suppliers seen_ids)
      as [[s1 seen1]|e] eqn:Hb; simpl; [| done].
    intros Hrun Hr. destruct (IH _ _ Hrun Hr) as [Hr1|Hr1].
    + apply loop_body_inv in Hb as (type & id & Ht & Hi & -> & _).
      apply elem_of_app in Hr1 as [Hr1|Hr1]; [by left |].
      apply emitted_fresh in Hr1 as (_ & Hrel & ->).
      right. exists element, type, id. split; [left | done].
    + right. destruct Hr1 as (e' & type & id & Hin & Hrest).
      exists e', type, id. split; [by right | done].
Qed.

Lemma filter_and_process_data_run els :
  filter_and_process_data lower (Some {| elements := Some els |}) =
    match run_elements lower els [] ∅ with
    | Ok st => Ok st.1
    | Raise e => Raise e
    end.
Proof. apply for_elements_run. Qed.

End LoopFacts.

(** * The claims of the specification *)

(** C1.  An element is marked relevant if and only if its lowered shop
    category is one of wholesale, trade, industrial, or its lowered craft
    category is shoemaker, or its lowered name contains one of the twenty
    keywords of the specification (which are the keywords of the script).
    A relevant element that was not seen before contributes its record; an
    element that does not satisfy the rule contributes nothing, and every
    record of the result is the record of an element that satisfies the
    rule. *)
Theorem relevance_rule (lower : str -> str) (element : Element.t)
    (type : str) (id : Z) (suppliers : list Supplier.t)
    (seen_ids : gset str) :
  Element.type element = Some type → Element.id element = Some id →
  let name := lower (get (tags_of element) (lit "name") []) in
  let shop_type := lower (get (tags_of element) (lit "shop") []) in
  let craft_type := lower (get (tags_of element) (lit "craft") []) in
  length spec_keywords = 20%nat
  ∧ shoe_material_keywords = spec_keywords
  ∧ (relevant lower element = true
     ↔ spec_relevant name shop_type craft_type)
  ∧ (spec_relevant name shop_type craft_type →
     element_id type id ∉ seen_ids →
     loop_body lower element suppliers seen_ids =
       Ok (suppliers ++ [normalized type id element],
           {[element_id type id]} ∪ seen_ids))
  ∧ (¬ spec_relevant name shop_type craft_type →
     loop_body lower element suppliers seen_ids =
       Ok (suppliers, {[element_id type id]} ∪ seen_ids))
  ∧ (∀ els result,
       filter_and_process_data lower (Some {| elements := Some els |})
         = Ok result →
       ∀ r, r ∈ result →
         ∃ e type' id',
           e ∈ els ∧ Element.type e = Some type'
           ∧ Element.id e = Some id'
           ∧ spec_relevant (lower (get (tags_of e) (lit "name") []))
                           (lower (get (tags_of e) (lit "shop") []))
                           (lower (get (tags_of e) (lit "craft") []))
           ∧ r = normalized type' id' e).
Proof.
  intros Ht Hi name shop_type craft_type.
  assert (Hrel : relevant lower element = true
                 ↔ spec_relevant name shop_type craft_type)
    by apply is_relevant_spec.
  split; [reflexivity |]. split; [reflexivity |]. split; [exact Hrel |].
  split; [| split].
  - intros Hspec Hfresh. rewrite (loop_body_fresh _ _ _ _ _ _ Ht Hi Hfresh).
    apply Hrel in Hspec. by rewrite Hspec.
  - intros Hspec. rewrite (loop_body_ok _ _ _ _ _ _ Ht Hi).
    unfold emitted. destruct (relevant lower element) eqn:Hr.
    + exfalso. by apply Hspec, Hrel.
    + case_bool_decide; by rewrite app_nil_r.
  - intros els result. rewrite filter_and_process_data_run.
    destruct (run_elements lower els [] ∅) as [[s seen]|e] eqn:Hrun;
      [| done].
    intros [= <-] r Hr.
    destruct (run_elements_sound _ _ _ _ _ _ _ Hrun Hr)
      as [Hnil|(e & type' & id' & Hin & Ht' & Hi' & Hrel' & ->)].
    + by apply elem_of_nil in Hnil.
    + exists e, type', id'. repeat (split; [done |]).
      split; [| done]. by apply is_relevant_spec.
Qed.

Lemma relevance_rule_witness :
  loop_body lower_ro node42 [] ∅ =
    Ok ([normalized (lit "node") 42 node42],
        {[element_id (lit "node") 42]} ∪ ∅).
Proof.
  destruct (relevance_rule lower_ro node42 (lit "node") 42 [] ∅
              eq_refl eq_refl) as (_ & _ & Hrel & Hyes & _).
  apply Hyes.
  - apply Hrel. vm_compute. reflexivity.
  - apply not_elem_of_empty.
Defined.

(** C2.  Identity is the (type, id) pair.  A later element with the pair
    of an earlier one is skipped: removing it does not change the result.
    The result holds at most one record per pair; a record with the pair
    of an element that is the first of its pair comes from that element,
    and is in the result when that element is relevant. *)
Theorem first_occurrence_wins (lower : str -> str)
    (els1 els2 els3 : list Element.t) (element element' : Element.t)
    (type : str) (id : Z) :
  Element.type element = Some type → Element.id element = Some id →
  Element.type element' = Some type → Element.id element' = Some id →
  let els := els1 ++ element :: els2 ++ element' :: els3 in
  filter_and_process_data lower (Some {| elements := Some els |})
  = filter_and_process_data lower
      (Some {| elements := Some (els1 ++ element :: els2 ++ els3) |})
  ∧ ∀ suppliers,
      filter_and_process_data lower (Some {| elements := Some els |})
        = Ok suppliers →
      NoDup (identity <$> suppliers)
      ∧ ((∀ e, e ∈ els1 →
            ¬ (Element.type e = Some type ∧ Element.id e = Some id)) →
         (∀ r, r ∈ suppliers → identity r = (type, id) →
               r = normalized type id element)
         ∧ (relevant lower element = true →
            normalized type id element ∈ suppliers)).
Proof.
  intros Ht Hi Ht' Hi' els. split.
  - rewrite !filter_and_process_data_run. unfold els.
    by rewrite (run_elements_skip lower els1 element els2 element' els3
                  type id [] ∅ Ht Hi Ht' Hi').
  - intros suppliers. rewrite filter_and_process_data_run.
    destruct (run_elements lower els [] ∅) as [[s seen]|e] eqn:Hrun;
      [| done].
    intros [= <-]. split.
    + assert (Hrec : recorded s seen).
      { eapply run_elements_recorded; [| exact Hrun].
        split; [constructor | by intros ? ?%elem_of_nil]. }
      destruct Hrec as [Hnd _].
      change key_of with ((λ p, element_id p.1 p.2) ∘ identity) in Hnd.
      rewrite list_fmap_compose in Hnd. by apply NoDup_fmap_1 in Hnd.
    + intros Hfirst. split.
      * intros r Hr Hid.
        by destruct (run_elements_first lower els1 element
                       (els2 ++ element' :: els3) type id s seen r
                       Ht Hi Hfirst Hrun Hr Hid).
      * by apply (run_elements_first_kept lower els1 element
                    (els2 ++ element' :: els3) type id s seen).
Qed.

Lemma first_occurrence_wins_witness :
  filter_and_process_data lower_ro
    (Some {| elements := Some [way7; node42; way7; node42_again] |})
  = filter_and_process_data lower_ro
      (Some {| elements := Some [way7; node42; way7] |}).
Proof.
  exact (proj1 (first_occurrence_wins lower_ro [way7] [way7] []
                  node42 node42_again (lit "node") 42
                  eq_refl eq_refl eq_refl eq_refl)).
Defined.

(** ** Coordinates and fields of a record *)

Lemma coordinates_node (element : Element.t) :
  coordinates (lit "node") element
  = (Element.lat element, Element.lon element).
Proof. reflexivity. Qed.

Lemma coordinates_way (element : Element.t) :
  coordinates (lit "way") element
  = match Element.center element with
    | Some center => (Center.lat center, Center.lon center)
    | None => (None, None)
    end.
Proof. reflexivity. Qed.

Lemma coordinates_other (type : str) (element : Element.t) :
  type ≠ lit "node" → type ≠ lit "way" →
  coordinates type element = (None, None).
Proof.
  intros Hnode Hway. unfold coordinates.
  by rewrite !bool_decide_eq_false_2 by done.
Qed.

(** C3.  The latitude and longitude of the record of a relevant element
    are the element's own [lat] and [lon] when it is a node (null when it
    has none), its center's [lat] and [lon] when it is a way with a
    center, and null otherwise. *)
Theorem coordinates_rule (lower : str -> str) (element : Element.t)
    (type : str) (id : Z) (suppliers : list Supplier.t)
    (seen_ids : gset str) :
  Element.type element = Some type → Element.id element = Some id →
  element_id type id ∉ seen_ids → relevant lower element = true →
  ∃ r,
    loop_body lower element suppliers seen_ids
      = Ok (suppliers ++ [r], {[element_id type id]} ∪ seen_ids)
    ∧ (type = lit "node" →
       Supplier.latitude r = Element.lat element
       ∧ Supplier.longitude r = Element.lon element)
    ∧ (type = lit "node" →
       Element.lat element = None → Element.lon element = None →
       Supplier.latitude r = None ∧ Supplier.longitude r = None)
    ∧ (type = lit "way" →
       ∀ center, Element.center element = Some center →
         Supplier.latitude r = Center.lat center
         ∧ Supplier.longitude r = Center.lon center)
    ∧ (type = lit "way" → Element.center element = None →
       Supplier.latitude r = None ∧ Supplier.longitude r = None)
    ∧ (type ≠ lit "node" → type ≠ lit "way" →
       Supplier.latitude r = None ∧ Supplier.longitude r = None).
Proof.
  intros Ht Hi Hfresh Hrel. exists (normalized type id element).
  rewrite (loop_body_fresh _ _ _ _ _ _ Ht Hi Hfresh), Hrel.
  split; [done |]. simpl.
  split; [intros ->; by rewrite coordinates_node |].
  split.
  { intros -> Hlat Hlon. rewrite coordinates_node. simpl.
    by rewrite Hlat, Hlon. }
  split; [intros -> center Hc; rewrite coordinates_way; by rewrite Hc |].
  split; [intros -> Hc; rewrite coordinates_way; by rewrite Hc |].
  intros Hnode Hway. by rewrite coordinates_other.
Qed.

Lemma coordinates_rule_witness :
  ∃ r, loop_body lower_ro way7 [] ∅
         = Ok ([r], {[element_id (lit "way") 7]} ∪ ∅)
       ∧ Supplier.latitude r = Some 44.0%float
       ∧ Supplier.longitude r = Some 26.0%float.
Proof.
  destruct (coordinates_rule lower_ro way7 (lit "way") 7 [] ∅
              eq_refl eq_refl (not_elem_of_empty _) eq_refl)
    as (r & Hbody & _ & _ & Hway & _).
  exists r. split; [exact Hbody |].
  exact (Hway eq_refl {| Center.lat := Some 44.0%float;
                         Center.lon := Some 26.0%float |} eq_refl).
Defined.

(** C10.  A relevant element that is neither a node nor a way is
    projected like any other element, with null latitude and longitude
    whatever coordinates or center it carries. *)
Theorem other_kinds_have_no_coordinates (lower : str -> str)
    (element : Element.t) (type : str) (id : Z)
    (suppliers : list Supplier.t) (seen_ids : gset str) :
  Element.type element = Some type → Element.id element = Some id →
  type ≠ lit "node" → type ≠ lit "way" →
  element_id type id ∉ seen_ids → relevant lower element = true →
  ∃ r,
    loop_body lower element suppliers seen_ids
      = Ok (suppliers ++ [r], {[element_id type id]} ∪ seen_ids)
    ∧ Supplier.latitude r = None ∧ Supplier.longitude r = None
    ∧ Supplier.type r = type ∧ Supplier.id r = id
    ∧ ∀ type', r = {| Supplier.id := id;
                      Supplier.type := type;
                      Supplier.name :=
                        Supplier.name (normalized type' id element);
                      Supplier.address :=
                        Supplier.address (normalized type' id element);
                      Supplier.city :=
                        Supplier.city (normalized type' id element);
                      Supplier.postcode :=
                        Supplier.postcode (normalized type' id element);
                      Supplier.shop :=
                        Supplier.shop (normalized type' id element);
                      Supplier.craft :=
                        Supplier.craft (normalized type' id element);
                      Supplier.description :=
                        Supplier.description (normalized type' id element);
                      Supplier.phone :=
                        Supplier.phone (normalized type' id element);
                      Supplier.website :=
                        Supplier.website (normalized type' id element);
                      Supplier.latitude := None;
                      Supplier.longitude := None |}.
Proof.
  intros Ht Hi Hnode Hway Hfresh Hrel. exists (normalized type id element).
  rewrite (loop_body_fresh _ _ _ _ _ _ Ht Hi Hfresh), Hrel.
  split; [done |]. unfold normalized.
  rewrite (coordinates_other _ _ Hnode Hway). by simpl.
Qed.

Lemma other_kinds_have_no_coordinates_witness :
  ∃ r, loop_body lower_ro relation9 [] ∅
         = Ok ([r], {[element_id (lit "relation") 9]} ∪ ∅)
       ∧ Supplier.latitude r = None ∧ Supplier.longitude r = None
       ∧ Supplier.craft r = lit "shoemaker".
Proof.
  destruct (other_kinds_have_no_coordinates lower_ro relation9
              (lit "relation") 9 [] ∅ eq_refl eq_refl)
    as (r & Hbody & Hlat & Hlon & _ & _ & Hr).
  - vm_compute. discriminate.
  - vm_compute. discriminate.
  - apply not_elem_of_empty.
  - vm_compute. reflexivity.
  - exists r. split; [exact Hbody |]. split; [exact Hlat |].
    split; [exact Hlon |]. rewrite (Hr (lit "node")). reflexivity.
Defined.

(** C4.  The record of a relevant element keeps the name as it is written
    in the tags, or N/A; the city, or București; the street and house
    number joined by a space and stripped, which is empty when both are
    absent; the shop and craft tags as they are written; and the empty
    string for every other absent tag.  The node 42 of the specification
    gives the record stated there. *)
Theorem field_mapping (lower : str -> str) :
  (∀ (element : Element.t) (type : str) (id : Z)
     (suppliers : list Supplier.t) (seen_ids : gset str),
     Element.type element = Some type → Element.id element = Some id →
     element_id type id ∉ seen_ids → relevant lower element = true →
     let tags := tags_of element in
     ∃ r,
       loop_body lower element suppliers seen_ids
         = Ok (suppliers ++ [r], {[element_id type id]} ∪ seen_ids)
       ∧ Supplier.id r = id ∧ Supplier.type r = type
       ∧ Supplier.name r = default (lit "N/A") (tags !! lit "name")
       ∧ Supplier.city r = default (lit "București") (tags !! lit "addr:city")
       ∧ Supplier.address r
         = strip (default [] (tags !! lit "addr:street") ++ lit " "
                  ++ default [] (tags !! lit "addr:housenumber"))
       ∧ (tags !! lit "addr:street" = None →
          tags !! lit "addr:housenumber" = None → Supplier.address r = [])
       ∧ Supplier.shop r = default [] (tags !! lit "shop")
       ∧ Supplier.craft r = default [] (tags !! lit "craft")
       ∧ Supplier.postcode r = default [] (tags !! lit "addr:postcode")
       ∧ Supplier.description r = default [] (tags !! lit "description")
       ∧ Supplier.phone r = default [] (tags !! lit "phone")
       ∧ Supplier.website r = default [] (tags !! lit "website"))
  ∧ (lower (lit "wholesale") = lit "wholesale" →
     filter_and_process_data lower (Some {| elements := Some [node42] |})
     = Ok [record42]).
Proof.
  split.
  - intros element type id suppliers seen_ids Ht Hi Hfresh Hrel tags.
    exists (normalized type id element).
    rewrite (loop_body_fresh _ _ _ _ _ _ Ht Hi Hfresh), Hrel.
    split; [done |]. simpl. repeat (split; [done |]).
    split; [| done]. fold tags. intros -> ->. reflexivity.
  - intros Hlower. rewrite filter_and_process_data_run. simpl.
    rewrite (loop_body_fresh lower node42 (lit "node") 42 [] ∅
               eq_refl eq_refl (not_elem_of_empty _)).
    assert (Hrel : relevant lower node42 = true).
    { change (relevant lower node42)
        with (is_relevant (lower (lit "Depozit Piele SRL"))
                          (lower (lit "wholesale")) (lower [])).
      rewrite Hlower. apply is_relevant_spec. left. by left. }
    rewrite Hrel. simpl. do 2 f_equal.
Qed.

Lemma field_mapping_witness :
  filter_and_process_data lower_ro (Some {| elements := Some [node42] |})
  = Ok [record42].
Proof. apply (proj2 (field_mapping lower_ro)). reflexivity. Defined.

(** C5.  The way 7 of the specification, named Brutăria Centrală, is
    relevant: a keyword of the list, brut, occurs in its lowered name (no
    other keyword does), and its record is produced, with the coordinates
    of its center. *)
Theorem bakery_is_relevant (lower : str -> str) :
  lower (lit "Brutăria Centrală") = lit "brutăria centrală" →
  (∃ keyword, keyword ∈ spec_keywords
              ∧ substring keyword (lit "brutăria centrală"))
  ∧ filter (λ keyword, contains keyword (lit "brutăria centrală") = true)
           shoe_material_keywords = [lit "brut"]
  ∧ relevant lower way7 = true
  ∧ filter_and_process_data lower (Some {| elements := Some [way7] |})
    = Ok [normalized (lit "way") 7 way7]
  ∧ Supplier.latitude (normalized (lit "way") 7 way7) = Some 44.0%float
  ∧ Supplier.longitude (normalized (lit "way") 7 way7) = Some 26.0%float.
Proof.
  intros Hlower.
  assert (Hkw : ∃ keyword, keyword ∈ spec_keywords
                           ∧ substring keyword (lit "brutăria centrală")).
  { exists (lit "brut"). split.
    - apply (list_elem_of_lookup_2 _ 17). reflexivity.
    - apply contains_spec. reflexivity. }
  assert (Hrel : relevant lower way7 = true).
  { change (relevant lower way7)
      with (is_relevant (lower (lit "Brutăria Centrală"))
                        (lower []) (lower [])).
    rewrite Hlower. apply is_relevant_spec. right. by right. }
  split; [exact Hkw |]. split; [by vm_compute |].
  split; [exact Hrel |]. split; [| by split].
  rewrite filter_and_process_data_run. simpl.
  rewrite (loop_body_fresh lower way7 (lit "way") 7 [] ∅
             eq_refl eq_refl (not_elem_of_empty _)).
  by rewrite Hrel.
Qed.

Lemma bakery_is_relevant_witness : relevant lower_ro way7 = true.
Proof.
  destruct (bakery_is_relevant lower_ro eq_refl) as (_ & _ & Hrel & _).
  exact Hrel.
Defined.

(** ** The pipeline *)

(** C6.  When the fetch fails, and when the payload is null or has no
    elements key, the classifier returns the empty sequence and [main]
    runs to its end without an exception: it prints the cause and the
    no-results notice and writes no file. *)
Theorem fetch_failure_is_not_fatal (lower : str -> str)
    (float_repr : float -> str) (e : str) (w : world) :
  (fetch_osm_suppliers (Failed e) w).1 = None
  ∧ filter_and_process_data lower None = Ok []
  ∧ filter_and_process_data lower (Some {| elements := None |}) = Ok []
  ∧ main lower float_repr (Failed e) w
    = ({| console := console w ++ banner
                     ++ [lit "Error fetching data: " ++ e]
                     ++ no_results_notice;
          files := files w |}, Ok tt)
  ∧ main lower float_repr (Responded None) w
    = ({| console := console w ++ banner ++ no_results_notice;
          files := files w |}, Ok tt)
  ∧ main lower float_repr (Responded (Some {| elements := None |})) w
    = ({| console := console w ++ banner ++ no_results_notice;
          files := files w |}, Ok tt).
Proof.
  split; [reflexivity |]. split; [reflexivity |]. split; [reflexivity |].
  unfold main, fetch_osm_suppliers, display_results, print, banner,
    no_results_notice. simpl.
  repeat split; f_equal; f_equal; by rewrite <- ?app_assoc.
Qed.

(** ** The tabular writer *)

Lemma dict_to_list_items (r : Supplier.t) :
  dict_to_list (items r) = spec_cells r.
Proof. reflexivity. Qed.

(** The keys of a supplier dictionary are the field names: the writer
    never finds an extra key. *)
Lemma items_keys (r : Supplier.t) : (items r).*1 = fieldnames.
Proof. reflexivity. Qed.

Lemma writerow_header (float_repr : float -> str) :
  writerow float_repr (map VStr fieldnames) = spec_header.
Proof. reflexivity. Qed.

Lemma writerow_supplier (float_repr : float -> str) (r : Supplier.t) :
  writerow float_repr (dict_to_list (items r)) = spec_row float_repr r.
Proof.
  rewrite dict_to_list_items. unfold writerow.
  rewrite bool_decide_eq_false_2; [reflexivity |].
  intros H. by apply (f_equal length) in H.
Qed.

(** C7.  Given an empty sequence, the writer prints that there is
    nothing to save and leaves the file system as it is; given a
    non-empty one, it writes the file. *)
Theorem empty_sequence_writes_nothing (float_repr : float -> str)
    (filename : option str) (w : world) :
  save_to_csv float_repr [] filename w = print (lit "No data to save.") w
  ∧ files (save_to_csv float_repr [] filename w) = files w
  ∧ console (save_to_csv float_repr [] filename w)
    = console w ++ [lit "No data to save."]
  ∧ ∀ supplier rest,
      is_Some (files (save_to_csv float_repr (supplier :: rest) filename w)
               !! default (lit "bucharest_shoe_suppliers.csv") filename).
Proof.
  repeat split. intros supplier rest. unfold save_to_csv, print, write_file.
  simpl. rewrite lookup_insert_eq. eauto.
Qed.

(** C9.  Given a non-empty sequence, the writer creates the file with the
    header line of the specification followed by the line of each record,
    in order; the header has thirteen columns; no other file changes; the
    file is bucharest_shoe_suppliers.csv unless the caller names
    another. *)
Theorem csv_layout (float_repr : float -> str) (supplier : Supplier.t)
    (rest : list Supplier.t) (filename : option str) (w : world) :
  let suppliers := supplier :: rest in
  let path := default (lit "bucharest_shoe_suppliers.csv") filename in
  files (save_to_csv float_repr suppliers filename w) !! path
  = Some (spec_header ++ concat (map (spec_row float_repr) suppliers))
  ∧ length fieldnames = 13%nat
  ∧ (∀ r, length (spec_cells r) = 13%nat)
  ∧ length (map (spec_row float_repr) suppliers) = length suppliers
  ∧ (∀ other, other ≠ path →
       files (save_to_csv float_repr suppliers filename w) !! other
       = files w !! other)
  ∧ save_to_csv float_repr suppliers None w
    = save_to_csv float_repr suppliers
        (Some (lit "bucharest_shoe_suppliers.csv")) w
  ∧ ∀ name, files (save_to_csv float_repr suppliers (Some name) w) !! name
            = Some (spec_header
                    ++ concat (map (spec_row float_repr) suppliers)).
Proof.
  intros suppliers path.
  assert (Hfile : ∀ fname,
    files (save_to_csv float_repr suppliers fname w)
    = <[default (lit "bucharest_shoe_suppliers.csv") fname :=
          spec_header ++ concat (map (spec_row float_repr) suppliers)]>
        (files w)).
  { intros fname. unfold save_to_csv, suppliers, print, write_file.
    cbn [files]. rewrite writerow_header. do 3 f_equal.
    apply map_ext. intros r. apply writerow_supplier. }
  split; [by rewrite Hfile, lookup_insert_eq |].
  split; [reflexivity |]. split; [reflexivity |].
  split; [by rewrite length_map |].
  split; [intros other Hne; by rewrite Hfile, lookup_insert_ne |].
  split.
  { unfold save_to_csv. unfold default, from_option, id. reflexivity. }
  intros name. by rewrite Hfile, lookup_insert_eq.
Qed.

Lemma csv_layout_witness :
  files (save_to_csv (λ _, lit "0.0") [record42] None
                     {| console := []; files := ∅ |})
    !! lit "report.csv" = None.
Proof.
  destruct (csv_layout (λ _, lit "0.0") record42 [] None
              {| console := []; files := ∅ |}) as (_ & _ & _ & _ & Hother & _).
  rewrite Hother; [reflexivity |]. vm_compute. discriminate.
Defined.

(** ** Totality *)

Lemma normalized_defaults (element : Element.t) (type : str) (id : Z) :
  Element.type element = Some type →
  defaults_for element (normalized type id element).
Proof.
  intros Ht. unfold defaults_for, normalized.
  cbn [Supplier.name Supplier.address Supplier.city Supplier.postcode
       Supplier.shop Supplier.craft Supplier.description Supplier.phone
       Supplier.website Supplier.latitude Supplier.longitude].
  split; [by intros -> |]. split; [by intros -> -> |].
  do 7 (split; [by intros -> |]).
  assert (Hnode : Element.type element = Some (lit "node") →
                  coordinates type element
                  = (Element.lat element, Element.lon element)).
  { intros Hn. rewrite Ht in Hn. injection Hn as ->.
    apply coordinates_node. }
  assert (Hway : Element.type element = Some (lit "way") →
                 coordinates type element
                 = match Element.center element with
                   | Some center => (Center.lat center, Center.lon center)
                   | None => (None, None)
                   end).
  { intros Hw. rewrite Ht in Hw. injection Hw as ->.
    apply coordinates_way. }
  split; [intros Hn Hlat; by rewrite (Hnode Hn) |].
  split; [intros Hn Hlon; by rewrite (Hnode Hn) |].
  split; [intros Hw Hc; by rewrite (Hway Hw), Hc |].
  intros Hw center Hc. rewrite (Hway Hw), Hc. by split.
Qed.

(** C8.  The classifier returns a result for every payload whose elements
    have a type and an id, whatever else is absent: the tag dictionary,
    any tag, the coordinates, the center.  No iteration of the loop fails
    on such an element, and the record the loop appends for a relevant
    one, like every record of the result, holds the default of each
    attribute its element lacks: N/A for the name, București for the
    city, the empty string for the address and the other tags, null for
    the coordinates. *)
Theorem classifier_total (lower : str -> str) (osm_data : option payload) :
  (∀ d els, osm_data = Some d → elements d = Some els →
            Forall identified els) →
  (∃ suppliers,
     filter_and_process_data lower osm_data = Ok suppliers
     ∧ ∀ r, r ∈ suppliers →
         ∃ d els element,
           osm_data = Some d ∧ elements d = Some els ∧ element ∈ els
           ∧ Element.type element = Some (Supplier.type r)
           ∧ Element.id element = Some (Supplier.id r)
           ∧ defaults_for element r)
  ∧ (∀ element suppliers seen_ids,
       identified element →
       ∃ st, loop_body lower element suppliers seen_ids = Ok st)
  ∧ (∀ element type id suppliers seen_ids,
       Element.type element = Some type → Element.id element = Some id →
       element_id type id ∉ seen_ids → relevant lower element = true →
       ∃ r,
         loop_body lower element suppliers seen_ids
           = Ok (suppliers ++ [r], {[element_id type id]} ∪ seen_ids)
         ∧ defaults_for element r
         ∧ (Element.tags element = None →
            Supplier.name r = lit "N/A" ∧ Supplier.address r = []
            ∧ Supplier.city r = lit "București"
            ∧ Supplier.postcode r = [] ∧ Supplier.shop r = []
            ∧ Supplier.craft r = [] ∧ Supplier.description r = []
            ∧ Supplier.phone r = [] ∧ Supplier.website r = [])).
Proof.
  intros Hwf. split; [| split].
  - destruct osm_data as [[[els|]]|].
    + rewrite filter_and_process_data_run.
      destruct (proj1 (run_elements_total lower els [] ∅)) as [[s seen] Hst];
        [by eapply Hwf |].
      rewrite Hst. exists s. split; [done |]. intros r Hr.
      destruct (run_elements_sound _ _ _ _ _ _ _ Hst Hr)
        as [Hnil|(element & type & id & Hin & Ht & Hi & _ & ->)].
      * by apply elem_of_nil in Hnil.
      * exists {| elements := Some els |}, els, element.
        repeat (split; [done |]). by apply normalized_defaults.
    + exists []. split; [done |]. by intros r ?%elem_of_nil.
    + exists []. split; [done |]. by intros r ?%elem_of_nil.
  - intros element suppliers seen_ids [[type Ht] [id Hi]].
    rewrite (loop_body_ok _ _ _ _ _ _ Ht Hi). eauto.
  - intros element type id suppliers seen_ids Ht Hi Hfresh Hrel.
    exists (normalized type id element).
    rewrite (loop_body_fresh _ _ _ _ _ _ Ht Hi Hfresh), Hrel.
    split; [done |]. split; [by apply normalized_defaults |].
    intros Htags. unfold normalized, tags_of. rewrite Htags.
    cbn [Supplier.name Supplier.address Supplier.city Supplier.postcode
         Supplier.shop Supplier.craft Supplier.description Supplier.phone
         Supplier.website default from_option].
    rewrite !lookup_empty. by repeat split.
Qed.

Lemma classifier_total_witness :
  (∃ r, loop_body lower_ro shop_only [record42] ∅
          = Ok ([record42] ++ [r], {[element_id (lit "node") 3]} ∪ ∅)
        ∧ Supplier.name r = lit "N/A" ∧ Supplier.address r = []
        ∧ Supplier.city r = lit "București"
        ∧ Supplier.latitude r = None ∧ Supplier.longitude r = None)
  ∧ (∃ r, loop_body lower_ro way_without_center [] ∅
            = Ok ([] ++ [r], {[element_id (lit "way") 4]} ∪ ∅)
          ∧ Supplier.shop r = [] ∧ Supplier.craft r = lit "Shoemaker"
          ∧ Supplier.latitude r = None ∧ Supplier.longitude r = None).
Proof.
  assert (Hwf : ∀ d els,
            Some {| elements := Some [shop_only; way_without_center] |}
            = Some d →
            elements d = Some els → Forall identified els).
  { intros d els [= <-] [= <-]. repeat constructor; by eexists. }
  destruct (classifier_total lower_ro _ Hwf) as (_ & _ & Hbody).
  split.
  - destruct (Hbody shop_only (lit "node") 3%Z [record42] ∅ eq_refl eq_refl
                (not_elem_of_empty _) eq_refl)
      as (r & Hr & (Hname & Haddr & Hcity & _ & _ & _ & _ & _ & _
                    & Hlat & Hlon & _) & _).
    exists r. split; [exact Hr |].
    split; [by apply Hname |]. split; [by apply Haddr |].
    split; [by apply Hcity |]. split; [by apply Hlat | by apply Hlon].
  - destruct (Hbody way_without_center (lit "way") 4%Z [] ∅ eq_refl eq_refl
                (not_elem_of_empty _) eq_refl)
      as (r & Hr & (_ & _ & _ & _ & Hshop & _ & _ & _ & _
                    & _ & _ & Hway & _) & _).
    exists r. split; [exact Hr |]. split; [by apply Hshop |].
    split; [| by apply Hway].
    rewrite app_nil_l in Hr.
    assert (Hcomp : loop_body lower_ro way_without_center [] ∅
                    = Ok ([normalized (lit "way") 4 way_without_center],
                          {[element_id (lit "way") 4]} ∪ ∅))
      by reflexivity.
    rewrite Hcomp in Hr. by injection Hr as <-.
Defined.

(** * Further properties of the script *)

(** ** The key of [seen_ids] *)

(** X1.  Two elements are remembered under the same key of [seen_ids]
    exactly when they have the same type and the same id: the underscore
    that joins them cannot be confused with the characters of the id. *)
Theorem seen_key_identifies_pair (type type' : str) (id id' : Z) :
  element_id type id = element_id type' id' ↔ type = type' ∧ id = id'.
Proof.
  split; [apply element_id_inj |]. by intros [-> ->].
Qed.

(** ** How the loop ends *)

Section RunFacts.

Variable lower : str -> str.

Implicit Types (element : Element.t) (type : str) (id : Z).
Implicit Types (els : list Element.t).
Implicit Types (suppliers : list Supplier.t) (seen_ids : gset str).

Lemma missing_key_None element : missing_key element = None ↔ identified element.
Proof.
  unfold missing_key, identified.
  destruct (Element.type element), (Element.id element); split;
    try done; intros [[? ?] [? ?]]; done.
Qed.

Lemma loop_body_missing_key element key suppliers seen_ids :
  missing_key element = Some key →
  loop_body lower element suppliers seen_ids = Raise (KeyError key).
Proof.
  unfold missing_key.
  destruct (Element.type element) as [type|] eqn:Ht.
  - destruct (Element.id element) as [id|] eqn:Hi; [done |].
    intros [= <-]. by apply (loop_body_missing_id lower _ type).
  - intros [= <-]. by apply loop_body_missing_type.
Qed.

Lemma run_elements_raise_at els1 element els2 key suppliers seen_ids :
  Forall identified els1 → missing_key element = Some key →
  run_elements lower (els1 ++ element :: els2) suppliers seen_ids
  = Raise (KeyError key).
Proof.
  intros Hels Hkey. rewrite run_elements_app.
  destruct (proj1 (run_elements_total lower els1 suppliers seen_ids) Hels)
    as [st ->].
  simpl. by rewrite (loop_body_missing_key _ _ _ _ Hkey).
Qed.

Lemma run_elements_raise_inv els suppliers seen_ids ex :
  run_elements lower els suppliers seen_ids = Raise ex →
  ∃ els1 element els2 key,
    els = els1 ++ element :: els2 ∧ Forall identified els1
    ∧ missing_key element = Some key ∧ ex = KeyError key.
Proof.
  revert suppliers seen_ids. induction els as [|element els IH];
    intros suppliers seen_ids; simpl; [done |].
  destruct (missing_key element) as [key|] eqn:Hkey.
  - rewrite (loop_body_missing_key _ _ _ _ Hkey). intros [= <-].
    by exists [], element, els, key.
  - apply missing_key_None in Hkey. destruct Hkey as [[type Ht] [id Hi]].
    rewrite (loop_body_ok _ _ _ _ _ _ Ht Hi). simpl. intros Hrun.
    apply IH in Hrun as (els1 & e' & els2 & key & -> & Hels & Hkey & ->).
    exists (element :: els1), e', els2, key. split; [done |].
    split; [| done]. constructor; [| done]. split; eauto.
Qed.

End RunFacts.

(** X2.  The classifier raises [KeyError] exactly when some element has
    no type or no id; the error names the key missing from the first such
    element, type before id, and the records gathered before it are
    lost. *)
Theorem key_error_of_first_malformed_element (lower : str -> str)
    (els : list Element.t) (ex : exn) :
  filter_and_process_data lower (Some {| elements := Some els |}) = Raise ex
  ↔ ∃ els1 element els2 key,
      els = els1 ++ element :: els2 ∧ Forall identified els1
      ∧ missing_key element = Some key ∧ ex = KeyError key.
Proof.
  rewrite filter_and_process_data_run. split.
  - destruct (run_elements lower els [] ∅) as [st|e] eqn:Hrun; [done |].
    intros [= <-]. by eapply run_elements_raise_inv.
  - intros (els1 & element & els2 & key & -> & Hels & Hkey & ->).
    by rewrite (run_elements_raise_at lower _ _ _ _ _ _ Hels Hkey).
Qed.

Lemma key_error_of_first_malformed_element_witness :
  filter_and_process_data lower_ro
    (Some {| elements := Some [node42; way_without_id; way7] |})
  = Raise (KeyError (lit "id")).
Proof.
  apply key_error_of_first_malformed_element.
  exists [node42], way_without_id, [way7], (lit "id").
  split; [reflexivity |]. split; [| by split].
  repeat constructor; by eexists.
Defined.

(** ** How results compose *)

Section ComposeFacts.

Variable lower : str -> str.

Implicit Types (element : Element.t) (type : str) (id : Z).
Implicit Types (els more : list Element.t).
Implicit Types (suppliers : list Supplier.t) (seen_ids : gset str).

Lemma element_identity_Some element type id :
  element_identity element = Some (type, id)
  ↔ Element.type element = Some type ∧ Element.id element = Some id.
Proof.
  unfold element_identity.
  destruct (Element.type element), (Element.id element); split;
    try done; try (by intros [? ?]).
  - by intros [= -> ->].
  - by intros [[= ->] [= ->]].
Qed.

Lemma omap_length_le {A B : Type} (f : A → option B) (l : list A) :
  (length (omap f l) ≤ length l)%nat.
Proof.
  induction l as [|x l IH]; simpl; [done |].
  unfold omap in IH. destruct (f x); simpl; lia.
Qed.

Lemma run_elements_sublist els suppliers seen_ids suppliers' seen_ids' :
  run_elements lower els suppliers seen_ids = Ok (suppliers', seen_ids') →
  ∃ new, suppliers' = suppliers ++ new
         ∧ identity <$> new `sublist_of` omap element_identity els.
Proof.
  revert suppliers seen_ids. induction els as [|element els IH];
    intros suppliers seen_ids; simpl.
  - intros [= <- <-]. exists []. split; [by rewrite app_nil_r | constructor].
  - destruct (loop_body lower element suppliers seen_ids)
      as [[s1 seen1]|e] eqn:Hb; simpl; [| done].
    intros Hrun. apply IH in Hrun as (new & -> & Hsub).
    apply loop_body_inv in Hb as (type & id & Ht & Hi & -> & _).
    exists (emitted lower element type id seen_ids ++ new).
    split; [by rewrite app_assoc |].
    rewrite (proj2 (element_identity_Some element type id)) by done.
    unfold emitted. case_bool_decide; [by constructor |].
    destruct (relevant lower element); by constructor.
Qed.

Lemma run_elements_all_seen els suppliers seen_ids :
  (∀ element, element ∈ els →
     ∃ type id, Element.type element = Some type
                ∧ Element.id element = Some id
                ∧ element_id type id ∈ seen_ids) →
  run_elements lower els suppliers seen_ids = Ok (suppliers, seen_ids).
Proof.
  induction els as [|element els IH]; intros Hall; simpl; [done |].
  destruct (Hall element) as (type & id & Ht & Hi & Hin); [left |].
  rewrite (loop_body_seen _ _ _ _ _ _ Ht Hi Hin). simpl.
  apply IH. intros e' He'. apply Hall. by right.
Qed.

Lemma run_elements_keys_seen els suppliers seen_ids suppliers' seen_ids'
    element type id :
  run_elements lower els suppliers seen_ids = Ok (suppliers', seen_ids') →
  element ∈ els →
  Element.type element = Some type → Element.id element = Some id →
  element_id type id ∈ seen_ids'.
Proof.
  revert suppliers seen_ids. induction els as [|e els IH];
    intros suppliers seen_ids; simpl.
  - by intros _ ?%elem_of_nil.
  - destruct (loop_body lower e suppliers seen_ids)
      as [[s1 seen1]|ex] eqn:Hb; simpl; [| done].
    intros Hrun [->|Hin]%elem_of_cons Ht Hi.
    + apply loop_body_inv in Hb as (type' & id' & Ht' & Hi' & _ & ->).
      apply run_elements_mono in Hrun.
      assert (type' = type) as -> by congruence.
      assert (id' = id) as -> by congruence.
      set_solver.
    + by eapply IH.
Qed.

Lemma run_elements_frame els suppliers seen_ids suppliers0 seen_ids0
    suppliers' seen_ids' :
  (∀ element type id, element ∈ els →
     Element.type element = Some type → Element.id element = Some id →
     element_id type id ∉ seen_ids) →
  run_elements lower els suppliers0 seen_ids0 = Ok (suppliers', seen_ids') →
  run_elements lower els (suppliers ++ suppliers0) (seen_ids ∪ seen_ids0)
  = Ok (suppliers ++ suppliers', seen_ids ∪ seen_ids').
Proof.
  revert suppliers0 seen_ids0. induction els as [|element els IH];
    intros suppliers0 seen_ids0 Hfresh; simpl.
  - by intros [= <- <-].
  - destruct (loop_body lower element suppliers0 seen_ids0)
      as [[s1 seen1]|e] eqn:Hb; simpl; [| done].
    intros Hrun.
    apply loop_body_inv in Hb as (type & id & Ht & Hi & -> & ->).
    rewrite (loop_body_ok _ _ _ _ _ _ Ht Hi). simpl.
    assert (Hsame : emitted lower element type id (seen_ids ∪ seen_ids0)
                    = emitted lower element type id seen_ids0).
    { unfold emitted.
      assert (Hk : element_id type id ∉ seen_ids)
        by (eapply Hfresh; [left | done..]).
      rewrite (bool_decide_ext _ (element_id type id ∈ seen_ids0));
        [done |].
      rewrite elem_of_union. tauto. }
    assert (Hset : {[element_id type id]} ∪ (seen_ids ∪ seen_ids0)
                   = seen_ids ∪ ({[element_id type id]} ∪ seen_ids0)).
    { apply set_eq. intros k. rewrite !elem_of_union. tauto. }
    rewrite Hsame, Hset, <- app_assoc. apply IH; [| done].
    intros e' type' id' He'. apply Hfresh. by right.
Qed.

End ComposeFacts.

(** X3.  The classifier keeps the source order and invents nothing: the
    (type, id) pairs of the records form a subsequence of the pairs of the
    elements, so there are never more records than elements. *)
Theorem records_follow_source_order (lower : str -> str)
    (els : list Element.t) (result : list Supplier.t) :
  filter_and_process_data lower (Some {| elements := Some els |})
    = Ok result →
  identity <$> result `sublist_of` omap element_identity els
  ∧ (length result ≤ length els)%nat.
Proof.
  rewrite filter_and_process_data_run.
  destruct (run_elements lower els [] ∅) as [[s seen]|e] eqn:Hrun; [| done].
  intros [= <-]. simpl.
  apply run_elements_sublist in Hrun as (new & -> & Hsub). simpl.
  split; [done |]. apply sublist_length in Hsub.
  rewrite length_fmap in Hsub.
  pose proof (omap_length_le element_identity els). lia.
Qed.

Lemma records_follow_source_order_witness :
  identity <$> [normalized (lit "node") 42 node42;
                normalized (lit "way") 7 way7]
    `sublist_of` omap element_identity
                   [node42; bare (lit "node") 1; node42_again; way7].
Proof.
  apply (records_follow_source_order lower_ro
           [node42; bare (lit "node") 1; node42_again; way7]).
  vm_compute. reflexivity.
Defined.

(** X4.  Elements appended to the payload never change the records that
    come before: when the classifier succeeds on a longer list, it
    succeeds on every initial part of it, and the result of the longer
    list starts with the result of the initial part. *)
Theorem result_of_prefix_is_prefix (lower : str -> str)
    (els more : list Element.t) (result : list Supplier.t) :
  filter_and_process_data lower (Some {| elements := Some (els ++ more) |})
    = Ok result →
  ∃ first new,
    filter_and_process_data lower (Some {| elements := Some els |})
      = Ok first
    ∧ result = first ++ new.
Proof.
  rewrite !filter_and_process_data_run, run_elements_app.
  destruct (run_elements lower els [] ∅) as [[s seen]|e] eqn:Hrun; [| done].
  simpl.
  destruct (run_elements lower more s seen) as [[s' seen']|e] eqn:Hmore;
    [| done].
  intros [= <-]. simpl.
  apply run_elements_new in Hmore as (new & -> & _). by exists s, new.
Qed.

Lemma result_of_prefix_is_prefix_witness :
  ∃ first new,
    filter_and_process_data lower_ro
      (Some {| elements := Some [node42; way7] |}) = Ok first
    ∧ [normalized (lit "node") 42 node42; normalized (lit "way") 7 way7;
       normalized (lit "relation") 9 relation9] = first ++ new.
Proof.
  apply (result_of_prefix_is_prefix lower_ro [node42; way7] [relation9]).
  vm_compute. reflexivity.
Defined.

(** X5.  Appending elements whose (type, id) pairs all occur earlier in
    the list changes nothing: every one of them is skipped, whatever its
    tags. *)
Theorem appended_duplicates_are_ignored (lower : str -> str)
    (els more : list Element.t) :
  (∀ element', element' ∈ more →
     ∃ element, element ∈ els
                ∧ is_Some (element_identity element')
                ∧ element_identity element = element_identity element') →
  filter_and_process_data lower (Some {| elements := Some (els ++ more) |})
  = filter_and_process_data lower (Some {| elements := Some els |}).
Proof.
  intros Hdup. rewrite !filter_and_process_data_run, run_elements_app.
  destruct (run_elements lower els [] ∅) as [[s seen]|e] eqn:Hrun; [| done].
  simpl. rewrite run_elements_all_seen; [done |].
  intros element' Hin.
  destruct (Hdup element' Hin) as (element & Hel & [[type id] Hid'] & Hid).
  rewrite Hid' in Hid.
  apply element_identity_Some in Hid as [Ht Hi].
  apply element_identity_Some in Hid' as [Ht' Hi'].
  exists type, id. split; [done |]. split; [done |].
  by eapply run_elements_keys_seen.
Qed.

Lemma appended_duplicates_are_ignored_witness :
  filter_and_process_data lower_ro
    (Some {| elements := Some ([node42; way7] ++ [node42_again; way7]) |})
  = filter_and_process_data lower_ro
      (Some {| elements := Some [node42; way7] |}).
Proof.
  apply appended_duplicates_are_ignored.
  intros element' [->|[->|[]%elem_of_nil]%elem_of_cons]%elem_of_cons.
  - exists node42. split; [left |]. split; [by eexists | reflexivity].
  - exists way7. split; [right; left |]. split; [by eexists | reflexivity].
Defined.

(** X6.  Classifying two lists one after the other gives the records of
    the first followed by the records of the second, provided no (type,
    id) pair of the first list occurs in the second. *)
Theorem disjoint_lists_concatenate (lower : str -> str)
    (els1 els2 : list Element.t) (result1 result2 : list Supplier.t) :
  (∀ e1 e2 p, e1 ∈ els1 → e2 ∈ els2 →
              element_identity e1 = Some p → element_identity e2 ≠ Some p) →
  filter_and_process_data lower (Some {| elements := Some els1 |})
    = Ok result1 →
  filter_and_process_data lower (Some {| elements := Some els2 |})
    = Ok result2 →
  filter_and_process_data lower (Some {| elements := Some (els1 ++ els2) |})
  = Ok (result1 ++ result2).
Proof.
  intros Hdisj. rewrite !filter_and_process_data_run, run_elements_app.
  destruct (run_elements lower els1 [] ∅) as [[s1 seen1]|e] eqn:H1; [| done].
  destruct (run_elements lower els2 [] ∅) as [[s2 seen2]|e] eqn:H2; [| done].
  intros [= <-] [= <-]. simpl.
  pose proof (run_elements_frame lower els2 s1 seen1 [] ∅ s2 seen2) as Hf.
  rewrite app_nil_r, (right_id_L ∅ (∪)) in Hf. rewrite Hf; [done | | done].
  intros e2 type id He2 Ht Hi Hk.
  destruct (run_elements_seen _ _ _ _ _ _ _ H1 Hk)
    as [Hk0|(e1 & type1 & id1 & He1 & Ht1 & Hi1 & Heq)].
  - by apply not_elem_of_empty in Hk0.
  - apply element_id_inj in Heq as [-> ->].
    apply (Hdisj e1 e2 (type1, id1) He1 He2);
      by apply element_identity_Some.
Qed.

Lemma disjoint_lists_concatenate_witness :
  filter_and_process_data lower_ro
    (Some {| elements := Some ([node42] ++ [way7]) |})
  = Ok ([record42] ++ [normalized (lit "way") 7 way7]).
Proof.
  apply (disjoint_lists_concatenate lower_ro [node42] [way7]).
  - intros e1 e2 p ->%list_elem_of_singleton ->%list_elem_of_singleton.
    intros [= <-]. vm_compute. discriminate.
  - reflexivity.
  - reflexivity.
Defined.

(** ** The address *)

Lemma lstrip_head (s t : str) (c : N) :
  lstrip s = c :: t → isspace c = false.
Proof.
  induction s as [|a s IH]; simpl; [done |].
  destruct (isspace a) eqn:Ha; [exact IH |]. by intros [= <- <-].
Qed.

Lemma lstrip_app (s t : str) :
  lstrip (s ++ t) = if forallb isspace s then lstrip t else lstrip s ++ t.
Proof.
  induction s as [|a s IH]; simpl; [done |].
  destruct (isspace a); simpl; [exact IH | done].
Qed.

Lemma lstrip_all_space (s : str) :
  forallb isspace s = true → lstrip s = [].
Proof.
  induction s as [|a s IH]; simpl; [done |].
  destruct (isspace a); simpl; [exact IH | done].
Qed.

Lemma rstrip_snoc (s : str) (c : N) :
  rstrip (s ++ [c]) = if isspace c then rstrip s else s ++ [c].
Proof.
  unfold rstrip. rewrite rev_app_distr. simpl.
  destruct (isspace c); [done |]. simpl. by rewrite rev_involutive.
Qed.

Lemma rstrip_last (s t : str) (c : N) :
  rstrip s = t ++ [c] → isspace c = false.
Proof.
  unfold rstrip. intros H. apply (f_equal (@rev N)) in H.
  rewrite rev_involutive, rev_app_distr in H. simpl in H.
  by apply lstrip_head in H.
Qed.

Lemma rstrip_head (c : N) (t : str) :
  isspace c = false → ∃ t', rstrip (c :: t) = c :: t'.
Proof.
  intros Hc. induction t as [|d t IH] using rev_ind.
  - exists []. change [c] with ([] ++ [c]). by rewrite rstrip_snoc, Hc.
  - rewrite app_comm_cons, rstrip_snoc.
    destruct (isspace d); [exact IH | by eexists].
Qed.

(** What [strip] returns neither starts nor ends with whitespace. *)
Lemma strip_trimmed (s : str) :
  (∀ c t, strip s = c :: t → isspace c = false)
  ∧ (∀ t c, strip s = t ++ [c] → isspace c = false).
Proof.
  unfold strip. split.
  - intros c t. destruct (lstrip s) as [|c0 t0] eqn:Hl; [done |].
    apply lstrip_head in Hl.
    destruct (rstrip_head c0 t0 Hl) as [t' ->]. by intros [= <- _].
  - intros t c. apply rstrip_last.
Qed.

Lemma strip_space_r (s : str) : strip (s ++ [32]) = strip s.
Proof.
  unfold strip. rewrite lstrip_app.
  destruct (forallb isspace s) eqn:Hs.
  - by rewrite (lstrip_all_space s Hs).
  - by rewrite rstrip_snoc.
Qed.

Lemma strip_space_l (s : str) : strip (32 :: s) = strip s.
Proof. reflexivity. Qed.

Lemma strip_fixed (c d : N) (s : str) :
  isspace c = false → isspace d = false →
  strip (c :: s ++ [d]) = c :: s ++ [d].
Proof.
  intros Hc Hd. unfold strip. simpl. rewrite Hc.
  by rewrite app_comm_cons, rstrip_snoc, Hd.
Qed.

Lemma strip_joined (c d : N) (s h : str) :
  isspace c = false → isspace d = false →
  strip ((c :: s) ++ [32] ++ (h ++ [d])) = (c :: s) ++ [32] ++ (h ++ [d]).
Proof.
  intros Hc Hd.
  assert (E : (c :: s) ++ [32] ++ (h ++ [d]) = c :: (s ++ 32 :: h) ++ [d]).
  { simpl. by rewrite <- app_assoc. }
  rewrite E. by apply strip_fixed.
Qed.

(** X7.  No address in the result starts or ends with a whitespace
    character, whatever the street and house number tags hold. *)
Theorem addresses_are_trimmed (lower : str -> str) (els : list Element.t)
    (result : list Supplier.t) (r : Supplier.t) :
  filter_and_process_data lower (Some {| elements := Some els |})
    = Ok result →
  r ∈ result →
  (∀ c t, Supplier.address r = c :: t → isspace c = false)
  ∧ (∀ t c, Supplier.address r = t ++ [c] → isspace c = false).
Proof.
  rewrite filter_and_process_data_run.
  destruct (run_elements lower els [] ∅) as [[s seen]|e] eqn:Hrun; [| done].
  intros [= <-] Hr. simpl in Hr.
  destruct (run_elements_sound _ _ _ _ _ _ _ Hrun Hr)
    as [Hnil|(e & type & id & _ & _ & _ & _ & ->)].
  - by apply elem_of_nil in Hnil.
  - apply strip_trimmed.
Qed.

Lemma addresses_are_trimmed_witness : isspace 83 = false.
Proof.
  apply (proj1 (addresses_are_trimmed lower_ro [node5]
                  [normalized (lit "node") 5 node5]
                  (normalized (lit "node") 5 node5)
                  eq_refl (list_elem_of_here _ _))
           83 (lit "trada Lipscani")).
  reflexivity.
Defined.

(** X8.  The space that joins street and house number is not left
    dangling: with no house number the address is the stripped street,
    with no street it is the stripped house number, and a street and a
    house number without outer whitespace are joined by one space. *)
Theorem address_parts (lower : str -> str) (element : Element.t)
    (type : str) (id : Z) (suppliers : list Supplier.t)
    (seen_ids : gset str) :
  Element.type element = Some type → Element.id element = Some id →
  element_id type id ∉ seen_ids → relevant lower element = true →
  let street := tags_of element !! lit "addr:street" in
  let housenumber := tags_of element !! lit "addr:housenumber" in
  ∃ r,
    loop_body lower element suppliers seen_ids
      = Ok (suppliers ++ [r], {[element_id type id]} ∪ seen_ids)
    ∧ (housenumber = None → Supplier.address r = strip (default [] street))
    ∧ (street = None → Supplier.address r = strip (default [] housenumber))
    ∧ (∀ c s h d,
         street = Some (c :: s) → housenumber = Some (h ++ [d]) →
         isspace c = false → isspace d = false →
         Supplier.address r = (c :: s) ++ lit " " ++ (h ++ [d])).
Proof.
  intros Ht Hi Hfresh Hrel street housenumber.
  exists (normalized type id element).
  rewrite (loop_body_fresh _ _ _ _ _ _ Ht Hi Hfresh), Hrel.
  split; [done |]. simpl. fold street housenumber.
  change (lit " ") with [32]. split; [| split].
  - intros ->. simpl. apply strip_space_r.
  - intros ->. simpl. apply strip_space_l.
  - intros c s h d -> -> Hc Hd. by apply strip_joined.
Qed.

Lemma address_parts_witness :
  ∃ r, loop_body lower_ro node5 [] ∅
         = Ok ([r], {[element_id (lit "node") 5]} ∪ ∅)
       ∧ Supplier.address r = lit "Strada Lipscani".
Proof.
  destruct (address_parts lower_ro node5 (lit "node") 5 [] ∅
              eq_refl eq_refl (not_elem_of_empty _) eq_refl)
    as (r & Hbody & Hstreet & _).
  exists r. split; [exact Hbody |]. rewrite Hstreet; reflexivity.
Defined.

(** ** More on relevance *)

Lemma substring_trans (a b c : str) :
  substring a b → substring b c → substring a c.
Proof.
  intros (p & q & ->) (p' & q' & ->).
  exists (p' ++ p), (q ++ q'). by rewrite <- !app_assoc.
Qed.

(** X9.  Matching by name is matching by substring: when a lowered name
    makes an element relevant, so does every lowered name in which it
    occurs. *)
Theorem longer_names_stay_relevant (name name' shop_type craft_type : str) :
  is_relevant name shop_type craft_type = true →
  substring name name' →
  is_relevant name' shop_type craft_type = true.
Proof.
  rewrite !is_relevant_spec. unfold spec_relevant.
  intros [Hshop|[Hcraft|(keyword & Hin & Hsub)]] Hname.
  - by left.
  - right. by left.
  - right. right. exists keyword. split; [done |].
    by eapply substring_trans.
Qed.

Lemma longer_names_stay_relevant_witness :
  is_relevant (lit "the old shoe factory") [] [] = true.
Proof.
  apply (longer_names_stay_relevant (lit "shoe")); [reflexivity |].
  by exists (lit "the old "), (lit " factory").
Defined.

(** X10.  An element without a name, a shop and a craft tag, in particular
    an element without tags, is classified on empty strings and gives no
    record (for a lowering function that maps the empty string to
    itself); it is still remembered in [seen_ids]. *)
Theorem untagged_element_is_discarded (lower : str -> str)
    (element : Element.t) (type : str) (id : Z)
    (suppliers : list Supplier.t) (seen_ids : gset str) :
  lower [] = [] →
  Element.type element = Some type → Element.id element = Some id →
  tags_of element !! lit "name" = None →
  tags_of element !! lit "shop" = None →
  tags_of element !! lit "craft" = None →
  loop_body lower element suppliers seen_ids
  = Ok (suppliers, {[element_id type id]} ∪ seen_ids).
Proof.
  intros Hlower Ht Hi Hname Hshop Hcraft.
  rewrite (loop_body_ok _ _ _ _ _ _ Ht Hi). unfold emitted, relevant, get.
  rewrite Hname, Hshop, Hcraft. simpl. rewrite Hlower.
  assert (Hno : is_relevant [] [] [] = false) by (by vm_compute).
  rewrite Hno. case_bool_decide; by rewrite app_nil_r.
Qed.

Lemma untagged_element_is_discarded_witness :
  loop_body lower_ro (bare (lit "node") 1) [record42] ∅
  = Ok ([record42], {[element_id (lit "node") 1]} ∪ ∅).
Proof.
  by apply (untagged_element_is_discarded lower_ro (bare (lit "node") 1)
              (lit "node") 1).
Defined.

(** ** The console summary *)

Lemma display_supplier_block (i : Z) (supplier : Supplier.t) (w : world) :
  display_supplier i supplier w
  = {| console := console w ++ block i supplier; files := files w |}.
Proof.
  unfold display_supplier, block, print.
  destruct (Supplier.address supplier), (Supplier.shop supplier),
    (Supplier.craft supplier), (Supplier.phone supplier);
    cbn [console files]; f_equal; by rewrite <- ?app_assoc.
Qed.

Lemma display_from_blocks (i : Z) (suppliers : list Supplier.t) (w : world) :
  display_from i suppliers w
  = {| console := console w ++ blocks i suppliers; files := files w |}.
Proof.
  revert i w. induction suppliers as [|supplier rest IH]; intros i w.
  - simpl. rewrite app_nil_r. by destruct w.
  - change (display_from i (supplier :: rest) w)
      with (display_from (i + 1) rest (display_supplier i supplier w)).
    rewrite IH, display_supplier_block. cbn [console files blocks].
    by rewrite <- app_assoc.
Qed.

Lemma display_results_summary (suppliers : list Supplier.t) (w : world) :
  display_results suppliers w
  = {| console := console w ++ summary suppliers; files := files w |}.
Proof.
  destruct suppliers as [|supplier rest].
  - unfold display_results, print, summary, no_results_notice.
    cbn [console files]. by rewrite <- app_assoc.
  - unfold display_results, summary. rewrite display_from_blocks.
    unfold print. cbn [console files]. by rewrite <- !app_assoc.
Qed.

Lemma block_length (i : Z) (supplier : Supplier.t) :
  (2 ≤ length (block i supplier) ≤ 6)%nat.
Proof.
  unfold block.
  destruct (Supplier.address supplier), (Supplier.shop supplier),
    (Supplier.craft supplier), (Supplier.phone supplier);
    cbn [length app]; lia.
Qed.

Lemma blocks_length (i : Z) (suppliers : list Supplier.t) :
  (2 * length suppliers ≤ length (blocks i suppliers)
   ≤ 6 * length suppliers)%nat.
Proof.
  revert i. induction suppliers as [|supplier rest IH]; intros i.
  - simpl. lia.
  - cbn [blocks]. rewrite length_app. cbn [length].
    pose proof (block_length i supplier). pose proof (IH (i + 1)%Z). lia.
Qed.

Lemma block_headers_sublist (i : Z) (suppliers : list Supplier.t) :
  block_headers i suppliers `sublist_of` blocks i suppliers.
Proof.
  revert i. induction suppliers as [|supplier rest IH]; intros i.
  - constructor.
  - cbn [blocks block_headers]. unfold block. rewrite <- app_assoc.
    cbn [app]. apply sublist_skip. rewrite app_assoc.
    apply sublist_inserts_l, IH.
Qed.

Lemma block_headers_lookup (i : Z) (suppliers : list Supplier.t) (k : nat)
    (supplier : Supplier.t) :
  suppliers !! k = Some supplier →
  block_headers i suppliers !! k
  = Some (block_header (i + Z.of_nat k) supplier).
Proof.
  revert i k. induction suppliers as [|s rest IH]; intros i k; [done |].
  destruct k as [|k]; cbn [block_headers].
  - intros [= ->]. simpl. by rewrite Z.add_0_r.
  - intros Hk. change ((s :: rest) !! S k) with (rest !! k) in Hk.
    change ((?x :: ?l) !! S k) with (l !! k).
    rewrite (IH (i + 1)%Z k Hk). do 2 f_equal. lia.
Qed.

(** X11.  The console summary only prints: it leaves every file as it
    is, keeps what was printed before, and adds two lines and then between
    two and six lines per record. *)
Theorem display_results_only_prints (suppliers : list Supplier.t)
    (w : world) :
  files (display_results suppliers w) = files w
  ∧ ∃ lines,
      console (display_results suppliers w) = console w ++ lines
      ∧ (2 + 2 * length suppliers ≤ length lines
         ≤ 2 + 6 * length suppliers)%nat.
Proof.
  rewrite display_results_summary. split; [done |].
  exists (summary suppliers). split; [done |].
  destruct suppliers as [|supplier rest]; [simpl; lia |].
  unfold summary. rewrite length_app.
  pose proof (blocks_length 1 (supplier :: rest)). cbn [length] in *. lia.
Qed.

(** X12.  The blocks of the summary are numbered from 1 in the order of
    the sequence: the lines made of a number, a dot and the name of the
    record appear in that order among the printed lines, the record at
    position [k] (from 0) under the number [k + 1]. *)
Theorem display_results_numbers_from_one (suppliers : list Supplier.t)
    (w : world) :
  ∃ lines,
    console (display_results suppliers w) = console w ++ lines
    ∧ block_headers 1 suppliers `sublist_of` lines
    ∧ ∀ k supplier,
        suppliers !! k = Some supplier →
        block_headers 1 suppliers !! k
        = Some (int_str (Z.of_nat k + 1) ++ lit ". "
                ++ Supplier.name supplier).
Proof.
  rewrite display_results_summary. exists (summary suppliers).
  split; [done |]. split.
  - destruct suppliers as [|supplier rest]; [apply sublist_nil_l |].
    unfold summary. apply sublist_inserts_l, block_headers_sublist.
  - intros k supplier Hk. rewrite (block_headers_lookup 1 _ k _ Hk).
    unfold block_header. do 3 f_equal. lia.
Qed.

Lemma display_results_numbers_from_one_witness :
  block_headers 1 [record42; normalized (lit "way") 7 way7] !! 1%nat
  = Some (lit "2. Brutăria Centrală").
Proof.
  destruct (display_results_numbers_from_one
              [record42; normalized (lit "way") 7 way7]
              {| console := []; files := ∅ |}) as (lines & _ & _ & Hk).
  rewrite (Hk 1%nat (normalized (lit "way") 7 way7) eq_refl).
  reflexivity.
Defined.

(** ** Saving twice *)

Lemma save_to_csv_nonempty (float_repr : float -> str)
    (supplier : Supplier.t) (rest : list Supplier.t)
    (filename : option str) (w : world) :
  save_to_csv float_repr (supplier :: rest) filename w
  = {| console :=
         console w
         ++ [saved_notice (length (supplier :: rest))
                          (default default_filename filename)];
       files :=
         <[default default_filename filename :=
             spec_header
             ++ concat (map (spec_row float_repr) (supplier :: rest))]>
           (files w) |}.
Proof.
  unfold save_to_csv, print, write_file, saved_notice, default_filename.
  cbn [console files]. rewrite writerow_header. do 4 f_equal.
  apply map_ext. intros r. apply writerow_supplier.
Qed.

(** X13.  The file is opened for writing, not for appending: a second
    save to the same name replaces what the first one wrote, and the file
    system is as if only the second save had happened. *)
Theorem second_save_replaces_first (float_repr : float -> str)
    (earlier : list Supplier.t) (supplier : Supplier.t)
    (rest : list Supplier.t) (filename : option str) (w : world) :
  files (save_to_csv float_repr (supplier :: rest) filename
           (save_to_csv float_repr earlier filename w))
  = files (save_to_csv float_repr (supplier :: rest) filename w).
Proof.
  rewrite !(save_to_csv_nonempty float_repr supplier rest). cbn [files].
  destruct earlier as [|s l]; [done |].
  rewrite save_to_csv_nonempty. cbn [files]. apply insert_insert_eq.
Qed.

(** ** The program as a whole *)

Lemma main_spec (lower : str -> str) (float_repr : float -> str)
    (net : http_outcome) (w : world) :
  main lower float_repr net w
  = match filter_and_process_data lower (fetched net) with
    | Raise e =>
        ({| console := console w ++ banner ++ fetch_error_lines net;
            files := files w |}, Raise e)
    | Ok [] =>
        ({| console := console w ++ banner ++ fetch_error_lines net
                       ++ no_results_notice;
            files := files w |}, Ok tt)
    | Ok (supplier :: rest) =>
        ({| console := console w ++ banner ++ fetch_error_lines net
                       ++ summary (supplier :: rest)
                       ++ [saved_notice (length (supplier :: rest))
                                        default_filename]
                       ++ tips;
            files :=
              <[default_filename :=
                  spec_header
                  ++ concat (map (spec_row float_repr) (supplier :: rest))]>
                (files w) |}, Ok tt)
    end.
Proof.
  unfold main, fetch_osm_suppliers.
  destruct net as [body|e]; cbn [fetched fetch_error_lines].
  - destruct (filter_and_process_data lower body) as [[|supplier rest]|ex].
    + rewrite display_results_summary. unfold print, banner, summary.
      cbn [console files]. do 2 f_equal. by rewrite <- !app_assoc.
    + rewrite save_to_csv_nonempty, display_results_summary.
      unfold print, banner, tips. cbn [console files default from_option].
      do 2 f_equal. by rewrite <- !app_assoc.
    + unfold print, banner. cbn [console files]. do 2 f_equal.
      by rewrite <- !app_assoc.
  - destruct (filter_and_process_data lower None) as [[|supplier rest]|ex].
    + rewrite display_results_summary. unfold print, banner, summary.
      cbn [console files]. do 2 f_equal. by rewrite <- !app_assoc.
    + rewrite save_to_csv_nonempty, display_results_summary.
      unfold print, banner, tips. cbn [console files default from_option].
      do 2 f_equal. by rewrite <- !app_assoc.
    + unfold print, banner. cbn [console files]. do 2 f_equal.
      by rewrite <- !app_assoc.
Qed.

(** X14.  An element without a type or an id aborts the whole program:
    [main] ends with the uncaught [KeyError] right after the fetch, having
    printed the banner only; nothing is displayed and no file is written,
    even when earlier elements were relevant. *)
Theorem main_stops_at_malformed_element (lower : str -> str)
    (float_repr : float -> str) (els1 els2 : list Element.t)
    (element : Element.t) (key : str) (w : world) :
  Forall identified els1 → missing_key element = Some key →
  main lower float_repr
    (Responded (Some {| elements := Some (els1 ++ element :: els2) |})) w
  = ({| console := console w ++ banner; files := files w |},
     Raise (KeyError key)).
Proof.
  intros Hels Hkey. rewrite main_spec. cbn [fetched fetch_error_lines].
  rewrite filter_and_process_data_run.
  rewrite (run_elements_raise_at lower _ _ _ _ _ _ Hels Hkey).
  by rewrite app_nil_r.
Qed.

Lemma main_stops_at_malformed_element_witness :
  main lower_ro (λ _, lit "0.0")
    (Responded (Some {| elements := Some [node42; way_without_id; way7] |}))
    {| console := []; files := ∅ |}
  = ({| console := [] ++ banner; files := ∅ |}, Raise (KeyError (lit "id"))).
Proof.
  apply (main_stops_at_malformed_element lower_ro (λ _, lit "0.0")
           [node42] [way7] way_without_id (lit "id")).
  - repeat constructor; by eexists.
  - reflexivity.
Defined.

(** X15.  When the classifier returns at least one record, [main] ends
    normally: it has printed the banner, the fetch error if any, the
    summary, the notice of the save and the tips, in that order, and the
    only change to the file system is the default file, which holds the
    header line and the line of each record. *)
Theorem main_saves_results (lower : str -> str) (float_repr : float -> str)
    (net : http_outcome) (supplier : Supplier.t) (rest : list Supplier.t)
    (w : world) :
  filter_and_process_data lower (fetched net) = Ok (supplier :: rest) →
  main lower float_repr net w
  = ({| console := console w ++ banner ++ fetch_error_lines net
                   ++ summary (supplier :: rest)
                   ++ [saved_notice (length (supplier :: rest))
                                    default_filename]
                   ++ tips;
        files :=
          <[default_filename :=
              spec_header
              ++ concat (map (spec_row float_repr) (supplier :: rest))]>
            (files w) |}, Ok tt).
Proof. intros Hok. by rewrite main_spec, Hok. Qed.

Lemma main_saves_results_witness :
  (main lower_ro (λ _, lit "0.0")
     (Responded (Some {| elements := Some [node42] |}))
     {| console := []; files := ∅ |}).2 = Ok tt.
Proof.
  rewrite (main_saves_results lower_ro (λ _, lit "0.0")
             (Responded (Some {| elements := Some [node42] |}))
             record42 []); reflexivity.
Defined.

(** X16.  Whatever the network does, [main] keeps what was printed
    before, touches no file other than the default one, and leaves the
    file system as it is unless the classifier returned a record. *)
Theorem main_touches_only_its_file (lower : str -> str)
    (float_repr : float -> str) (net : http_outcome) (w : world) :
  let w' := (main lower float_repr net w).1 in
  console w `prefix_of` console w'
  ∧ (∀ other, other ≠ default_filename →
              files w' !! other = files w !! other)
  ∧ ((∀ supplier rest,
        filter_and_process_data lower (fetched net)
        ≠ Ok (supplier :: rest)) →
     files w' = files w).
Proof.
  rewrite main_spec.
  destruct (filter_and_process_data lower (fetched net))
    as [[|supplier rest]|e]; cbn [fst console files].
  - split; [by eexists |]. by split.
  - split; [by eexists |]. split.
    + intros other Hne. by rewrite lookup_insert_ne.
    + intros Hno. by destruct (Hno supplier rest).
  - split; [by eexists |]. by split.
Qed.

Lemma main_touches_only_its_file_witness :
  files (main lower_ro (λ _, lit "0.0")
           (Responded (Some {| elements := Some [node42] |}))
           {| console := []; files := ∅ |}).1
    !! lit "notes.txt" = None.
Proof.
  destruct (main_touches_only_its_file lower_ro (λ _, lit "0.0")
              (Responded (Some {| elements := Some [node42] |}))
              {| console := []; files := ∅ |}) as (_ & Hother & _).
  rewrite Hother; [reflexivity |]. vm_compute. discriminate.
Defined.

(** ** Shadowing *)

(** X17.  The first element of an identity decides for all of them: when
    it is not relevant, the result holds no record of that (type, id)
    pair, even if a later element with the same pair is relevant. *)
Theorem irrelevant_first_occurrence_shadows (lower : str -> str)
    (els1 els3 : list Element.t) (element : Element.t) (type : str)
    (id : Z) (result : list Supplier.t) :
  Element.type element = Some type → Element.id element = Some id →
  (∀ e, e ∈ els1 →
        ¬ (Element.type e = Some type ∧ Element.id e = Some id)) →
  relevant lower element = false →
  filter_and_process_data lower
    (Some {| elements := Some (els1 ++ element :: els3) |}) = Ok result →
  ∀ r, r ∈ result → identity r ≠ (type, id).
Proof.
  intros Ht Hi Hfirst Hrel. rewrite filter_and_process_data_run.
  destruct (run_elements lower (els1 ++ element :: els3) [] ∅)
    as [[s seen]|e] eqn:Hrun; [| done].
  intros [= <-] r Hr Hid. simpl in Hr.
  destruct (run_elements_first lower els1 element els3 type id s seen r
              Ht Hi Hfirst Hrun Hr Hid) as [Hyes _].
  congruence.
Qed.

Lemma irrelevant_first_occurrence_shadows_witness :
  identity (normalized (lit "way") 7 way7) ≠ (lit "node", 42%Z).
Proof.
  apply (irrelevant_first_occurrence_shadows lower_ro [way7] [node42]
           (bare (lit "node") 42) (lit "node") 42
           [normalized (lit "way") 7 way7]).
  - reflexivity.
  - reflexivity.
  - intros e ->%list_elem_of_singleton [Ht _]. vm_compute in Ht.
    discriminate.
  - reflexivity.
  - reflexivity.
  - left.
Defined.
